(** * loc-generator: the artifact store of [server.js]

    A shallow embedding of [server.js], an Express server that forwards
    text and speech to a voice provider and stores the audio it gets back
    under [public/audios], with the properties its specification states
    about file naming, directory provisioning and error handling.

    Embedded: the start-up loop that provides the directories,
    [saveBufferToPublic], and the handlers of [/api/generateAudio],
    [/api/speech-to-speech] and [/api/createProject], each with its
    [try]/[catch].

    Conventions.
    - A JavaScript string is the list of its UTF-16 code units
      ([list N]); [lit] embeds an ASCII literal. A buffer is the list of
      its bytes.
    - An absolute path is the list of its components from the root of the
      file system; [path_join] is [path.join] on an absolute, normalized
      first argument. [posix_join] is [path.posix.join] on strings.
    - The file system and the console are explicit state; the clock
      reading and the provider's answers come with each request. A
      directory takes names of at most [NAME_MAX] bytes.
    - Of the provider's client library, the constructor is embedded by
      its check of the key (the key it is given, or else the one in
      [ELEVENLABS_API_KEY]; with neither it throws), and the calls that
      go over the network by the answers they settle to.
    - Code that may throw runs in the monad [M]; [try_catch] is
      [try]/[catch]. *)

From Stdlib Require Import ZArith NArith List Bool Ascii String Lia.
From Stdlib Require Import DecimalString DecimalZ.
From stdpp Require Import gmap list.

Local Open Scope N_scope.
Local Open Scope list_scope.

(** ** JavaScript values *)

Fixpoint lit (s : string) : list N :=
  match s with
  | EmptyString => []
  | String a r => N_of_ascii a :: lit r
  end.
Arguments lit s%_string.

(** What a field of a parsed JSON (or urlencoded) body can hold. Objects
    and arrays are always truthy and have no [replace] method; of a number
    the handlers only ask whether it is zero, so integers stand for all. *)
Inductive jsval :=
  | VUndefined
  | VNull
  | VBool (b : bool)
  | VNumber (z : Z)
  | VString (s : list N)
  | VObject.

(** [ToBoolean]: what [!v] and [v || w] test. *)
Definition truthy (v : jsval) : bool :=
  match v with
  | VUndefined | VNull => false
  | VBool b => b
  | VNumber z => negb (Z.eqb z 0)
  | VString s => negb (bool_decide (s = []))
  | VObject => true
  end.

(** [process.env.X]: a string or [undefined]. *)
Definition env_value (o : option (list N)) : jsval :=
  match o with Some s => VString s | None => VUndefined end.

(** [a || b] *)
Definition js_or (a b : jsval) : jsval := if truthy a then a else b.

(** Template-literal conversion of an integral Number (the result of
    [Date.now()]): its decimal digits, with a leading [-] when negative. *)
Definition Number_toString (z : Z) : list N :=
  lit (NilEmpty.string_of_int (Z.to_int z)).

(** ** The regular expression [/[^a-z0-9-_]/gi] *)

Definition ascii_upper (c : N) : N :=
  if (97 <=? c) && (c <=? 122) then c - 32 else c.

Definition code_units (lo : nat) (n : nat) : list N := map N.of_nat (seq lo n).

(** The class [a-z0-9-_] before inversion: two ranges and two atoms. *)
Definition project_class : list N :=
  code_units 97 26 ++ code_units 48 10 ++ [45; 95].

Definition slash : N := 47.

(** [s.split(sep)] for a one-unit separator. *)
Fixpoint split_on (sep : N) (s : list N) : list (list N) :=
  match s with
  | [] => [[]]
  | c :: r =>
      if c =? sep then [] :: split_on sep r
      else match split_on sep r with
           | h :: t => (c :: h) :: t
           | [] => [[c]]
           end
  end.

(** [segs.join('/')] *)
Fixpoint join_segments (segs : list (list N)) : list N :=
  match segs with
  | [] => []
  | [s] => s
  | s :: rest => s ++ slash :: join_segments rest
  end.

(** One segment of [normalizeString]: empty and [.] segments vanish, [..]
    removes the segment before it, or stays when there is none to remove
    and the path is relative ([allowAboveRoot]). *)
Definition normalize_segment (allowAboveRoot : bool) (acc : list (list N))
    (seg : list N) : list (list N) :=
  if bool_decide (seg = []) || bool_decide (seg = lit ".") then acc
  else if bool_decide (seg = lit "..") then
    match last acc with
    | Some l =>
        if bool_decide (l = lit "..") then
          (if allowAboveRoot then acc ++ [seg] else acc)
        else removelast acc
    | None => if allowAboveRoot then acc ++ [seg] else acc
    end
  else acc ++ [seg].

Definition normalize_segments (allowAboveRoot : bool) (p : list N)
    : list (list N) :=
  fold_left (normalize_segment allowAboveRoot) (split_on slash p) [].

(** [path.posix.normalize] *)
Definition posix_normalize (p : list N) : list N :=
  match p with
  | [] => lit "."
  | c :: _ =>
      let isAbsolute := c =? slash in
      let trailingSeparator := bool_decide (last p = Some slash) in
      let body := join_segments (normalize_segments (negb isAbsolute) p) in
      match body with
      | [] =>
          if isAbsolute then lit "/"
          else if trailingSeparator then lit "./" else lit "."
      | _ =>
          let body' := if trailingSeparator then body ++ [slash] else body in
          if isAbsolute then slash :: body' else body'
      end
  end.

(** [path.posix.join(a, b)]: zero-length arguments are skipped, the rest
    are joined with [/] and normalized. *)
Definition posix_join (a b : list N) : list N :=
  let joined :=
    match a, b with
    | [], _ => b
    | _, [] => a
    | _, _ => a ++ slash :: b
    end in
  match joined with
  | [] => lit "."
  | _ => posix_normalize joined
  end.

(** [path.join(base, arg)] for an absolute, normalized [base] kept as its
    list of components: the segments of [arg] are resolved one by one. *)
Definition path_join (base : list (list N)) (arg : list N) : list (list N) :=
  fold_left (normalize_segment false) (split_on slash arg) base.

(** ** The file system *)

(** Directories and regular files, keyed by absolute path. The root [[]]
    is always a directory. *)
Record filesystem := {
  dirs : gset (list (list N));
  files : gmap (list (list N)) (list N)
}.

Inductive errno := ENOENT | ENOTDIR | EISDIR | EEXIST | ENAMETOOLONG.

(** What [catch (err)] can receive: a failed file-system call, a call of a
    method the value does not have, or whatever the provider's client
    rejected with (its [message], when it has one). *)
Inductive jserror :=
  | SystemError (code : errno) (p : list (list N))
  | TypeError
  | Rejected (message : option (list N)).

Definition is_dir (fs : filesystem) (p : list (list N)) : bool :=
  bool_decide (p = []) || bool_decide (p ∈ dirs fs).

Definition is_file (fs : filesystem) (p : list (list N)) : bool :=
  bool_decide (is_Some (files fs !! p)).

(** [fsSync.existsSync] *)
Definition existsSync (fs : filesystem) (p : list (list N)) : bool :=
  is_dir fs p || is_file fs p.

(** The path itself and every directory above it, the root excepted,
    from the top down. *)
Definition prefixes (p : list (list N)) : list (list (list N)) :=
  map (fun n => take n p) (seq 1 (length p)).

Definition parent (p : list (list N)) : list (list N) := removelast p.

(** The length of a name on disk: the bytes of its UTF-8 form, a pair of
    surrogates being one character of four bytes and a lone one the
    replacement character. *)
Definition is_high_surrogate (c : N) : bool := (55296 <=? c) && (c <=? 56319).
Definition is_low_surrogate (c : N) : bool := (56320 <=? c) && (c <=? 57343).

Fixpoint utf8_length (s : list N) : N :=
  match s with
  | [] => 0
  | c :: r =>
      if c <? 128 then 1 + utf8_length r
      else if c <? 2048 then 2 + utf8_length r
      else if is_high_surrogate c then
        match r with
        | d :: r' =>
            if is_low_surrogate d then 4 + utf8_length r'
            else 3 + utf8_length r
        | [] => 3
        end
      else 3 + utf8_length r
  end.

(** The longest name the file system takes. *)
Definition NAME_MAX : N := 255.

Definition name_fits (s : list N) : bool := utf8_length s <=? NAME_MAX.

(** The last name of a path. *)
Definition last_name (p : list (list N)) : list N := default [] (last p).

(** What stops the creation of directories on the way down to a path: a
    regular file, or a name that is too long. *)
Definition blocked (fs : filesystem) (q : list (list N)) : bool :=
  is_file fs q || negb (name_fits (last_name q)).

(** What stops the walk down to a path that is not there: the first place
    from the top that is not a directory is a regular file or is missing. *)
Definition walk_errno (fs : filesystem) (p : list (list N)) : errno :=
  match find (fun q => negb (is_dir fs q)) (prefixes p) with
  | Some q => if is_file fs q then ENOTDIR else ENOENT
  | None => ENOENT
  end.

(** [mkdir(p, { recursive: true })], as [fsSync.mkdirSync] and [fs.mkdir]
    both do it: every missing directory down to [p] is created, a directory
    already there is no error; a regular file in the way or a name longer
    than [NAME_MAX] is one, reported for the path asked for. *)
Definition mkdir_recursive (fs : filesystem) (p : list (list N))
    : jserror + filesystem :=
  match find (blocked fs) (prefixes p) with
  | Some q =>
      inl (SystemError
             (if is_file fs q then
                (if bool_decide (q = p) then EEXIST else ENOTDIR)
              else ENAMETOOLONG) p)
  | None =>
      inr {| dirs := dirs fs ∪ list_to_set (prefixes p); files := files fs |}
  end.

(** [fs.writeFile(p, data)] run to completion: the file is created, or
    replaced when it is there already. When the directory of [p] is not
    there, the error tells whether a regular file or a missing directory
    stopped the walk. *)
Definition writeFile (fs : filesystem) (p : list (list N)) (data : list N)
    : jserror + filesystem :=
  if is_dir fs p then inl (SystemError EISDIR p)
  else if is_dir fs (parent p) then
    inr {| dirs := dirs fs; files := <[p := data]> (files fs) |}
  else inl (SystemError (walk_errno fs (parent p)) p).

(** [fs.unlink(p)] *)
Definition unlink (fs : filesystem) (p : list (list N))
    : jserror + filesystem :=
  match files fs !! p with
  | Some _ => inr {| dirs := dirs fs; files := delete p (files fs) |}
  | None => inl (SystemError (if is_dir fs p then EISDIR else ENOENT) p)
  end.

(** [fs.writeFile] as readers of the file system can watch it: the file is
    opened with the default flag [w], which creates or truncates it; the
    data is then written by one or more writes, each appending a non-empty
    part; the file is closed when nothing is left. *)
Inductive write_state :=
  | Opening (data : list N)
  | Writing (rest : list N)
  | Closed.

Inductive write_step (p : list (list N))
    : filesystem * write_state -> filesystem * write_state -> Prop :=
  | step_open fs data :
      is_dir fs p = false ->
      is_dir fs (parent p) = true ->
      write_step p (fs, Opening data)
        ({| dirs := dirs fs; files := <[p := []]> (files fs) |}, Writing data)
  | step_write fs written part rest :
      part <> [] ->
      files fs !! p = Some written ->
      write_step p (fs, Writing (part ++ rest))
        ({| dirs := dirs fs; files := <[p := written ++ part]> (files fs) |},
         Writing rest)
  | step_close fs :
      write_step p (fs, Writing []) (fs, Closed).

(** What a reader (the static file server, say) finds at [p]. *)
Definition visible (fs : filesystem) (p : list (list N)) : option (list N) :=
  files fs !! p.

(** ** The process: file system and console *)

Inductive console_entry :=
  | ConsoleLog (voices : list (list N))
  | ConsoleError (label : list N) (err : jserror).

Record world := { fs : filesystem; console : list console_entry }.

(** The world with [data] stored in the file [p], and the world with
    more lines on the console. *)
Definition stored (w : world) (p : list (list N)) (data : list N) : world :=
  {| fs := {| dirs := dirs (fs w); files := <[p := data]> (files (fs w)) |};
     console := console w |}.

Definition logged (w : world) (entries : list console_entry) : world :=
  {| fs := fs w; console := console w ++ entries |}.

(** The world with the directory [p], and those above it, in place. *)
Definition made (w : world) (p : list (list N)) : world :=
  {| fs := {| dirs := dirs (fs w) ∪ list_to_set (prefixes p);
              files := files (fs w) |};
     console := console w |}.

(** Code that may throw and that changes the world. *)
Definition M (A : Type) : Type := world -> (jserror + A) * world.

Definition ret {A} (a : A) : M A := fun w => (inr a, w).

Definition throw {A} (e : jserror) : M A := fun w => (inl e, w).

Definition bind {A B} (m : M A) (k : A -> M B) : M B :=
  fun w =>
    match m w with
    | (inl e, w') => (inl e, w')
    | (inr a, w') => k a w'
    end.

Notation "'let*' x ':=' m 'in' k" := (bind m (fun x => k))
  (at level 10, x name, m at level 100, k at level 200).
Notation "'run' m 'in' k" := (bind m (fun _ => k))
  (at level 10, m at level 100, k at level 200).

(** [try { body } catch (err) { handler }] *)
Definition try_catch {A} (body : M A) (handler : jserror -> M A) : M A :=
  fun w =>
    match body w with
    | (inl e, w') => handler e w'
    | (inr a, w') => (inr a, w')
    end.

(** An awaited promise that is already settled. *)
Definition await {A} (settled : jserror + A) : M A :=
  fun w => (settled, w).

(** A file-system call. *)
Definition fs_call (op : filesystem -> jserror + filesystem) : M unit :=
  fun w =>
    match op (fs w) with
    | inl e => (inl e, w)
    | inr fs' => (inr tt, {| fs := fs'; console := console w |})
    end.

Definition fs_read {A} (q : filesystem -> A) : M A :=
  fun w => (inr (q (fs w)), w).

Definition console_log (voices : list (list N)) : M unit :=
  fun w => (inr tt, logged w [ConsoleLog voices]).

Definition console_error (label : list N) (err : jserror) : M unit :=
  fun w => (inr tt, logged w [ConsoleError label err]).

(** ** Requests, responses and the voice provider *)

(** The JSON bodies the handlers send. [details] holds the error whose
    [message] the body carries ([details: err?.message]). *)
Inductive json_body :=
  | JsonError (error : list N) (details : option jserror)
  | JsonAudio (audioUrl : list N)
  | JsonMessage (message : list N).

Record response := { status : N; body : json_body }.

(** [res.json(b)] and [res.status(n).json(b)] *)
Definition res_json (b : json_body) : response := {| status := 200; body := b |}.
Definition res_status_json (n : N) (b : json_body) : response :=
  {| status := n; body := b |}.

(** The fields of the body of [/api/generateAudio] that decide what the
    handler does. [stability], [similarity] and [style] only travel to the
    provider inside [voice_settings]. *)
Record generateAudio_body := { text : jsval; voice : jsval }.

(** A chunk of the provider's audio stream. *)
Inductive chunk :=
  | OfBuffer (b : list N)
  | OfUint8Array (a : list N).

(** [ch instanceof Buffer ? ch : Buffer.from(ch)] *)
Definition to_Buffer (ch : chunk) : list N :=
  match ch with
  | OfBuffer b => b
  | OfUint8Array a => a
  end.

(** What [for await (const ch of gen)] meets: chunks, then the end of the
    stream or an error. *)
Inductive audio_stream :=
  | StreamEnd
  | StreamChunk (ch : chunk) (rest : audio_stream)
  | StreamThrow (err : jserror).

(** The provider as [generateAudio] sees it, for one request: the outcome
    of [client.voices.getAll()] and of [client.generate(generateOpts)] on
    a client that could be built, given the [apiKey] option it was built
    with and the request's voice and text. *)
Record tts_provider := {
  client_voices_getAll : option (list N) -> jserror + list (list N);
  client_generate :
    option (list N) -> jsval -> jsval -> jserror + audio_stream
}.

(** [req.file] as multer leaves it: the temporary upload is on disk. *)
Record upload_file := { file_path : list (list N); file_filename : list N }.

Record s2s_request := { file : option upload_file; s2s_voice : jsval }.

(** The provider as [speech-to-speech] sees it: the outcome of building the
    form and of [axios.post(stsUrl, form, ...)], given the key, the voice
    and the uploaded file. *)
Record sts_provider := {
  axios_post : jsval -> jsval -> list (list N) -> jserror + list N
}.

(** The error the constructor of the client throws when it is given no
    key and finds none in the environment. *)
Definition msg_missing_api_key : list N :=
  lit "Please pass in your ElevenLabs API Key or export "
    ++ lit "ELEVENLABS_API_KEY in your environment.".

Definition missing_api_key : jserror := Rejected (Some msg_missing_api_key).

(** A client built by [new ElevenLabsClient({ apiKey })] is an object; the
    module-level [elevenClient] starts as [null]. *)
Inductive client_ref :=
  | NullClient
  | Client (apiKey : option (list N)).

Definition client_truthy (c : client_ref) : bool :=
  match c with NullClient => false | Client _ => true end.

(** [for await (const ch of gen) chunks.push(...)] *)
Fixpoint collect (gen : audio_stream) (chunks : list (list N))
    : jserror + list (list N) :=
  match gen with
  | StreamEnd => inr chunks
  | StreamChunk ch rest => collect rest (chunks ++ [to_Buffer ch])
  | StreamThrow err => inl err
  end.

(** [Buffer.concat(chunks)]: every chunk is copied, in list order, into one
    new buffer. *)
Fixpoint Buffer_concat (chunks : list (list N)) : list N :=
  match chunks with
  | [] => []
  | b :: rest => b ++ Buffer_concat rest
  end.

(** The chunks a stream yields before it ends or fails. *)
Fixpoint yielded (gen : audio_stream) : list chunk :=
  match gen with
  | StreamChunk ch rest => ch :: yielded rest
  | _ => []
  end.

(** How a stream finishes: [None] at its end, the error when it throws. *)
Fixpoint outcome (gen : audio_stream) : option jserror :=
  match gen with
  | StreamEnd => None
  | StreamChunk _ rest => outcome rest
  | StreamThrow err => Some err
  end.

(** The two kinds of artifact the handlers store. *)
Inductive category := Tts | S2s.

Definition category_prefix (c : category) : list N :=
  match c with Tts => lit "tts" | S2s => lit "s2s" end.

(** Messages of the handlers. The code units above 127 are the accented
    letters of the Portuguese texts. *)
Definition e_acute : N := 233.
Definition o_acute : N := 243.
Definition a_tilde : N := 227.
Definition a_acute : N := 225.

Definition obrigatorio : list N := lit "obrigat" ++ o_acute :: lit "rio".
Definition audio_word : list N := a_acute :: lit "udio".

Definition msg_texto_obrigatorio : list N :=
  lit "Texto " ++ e_acute :: lit " " ++ obrigatorio.
Definition msg_key_nao_configurada : list N :=
  lit "ElevenLabs API key n" ++ a_tilde :: lit "o configurada".
Definition msg_erro_gerar_audio : list N := lit "Erro ao gerar " ++ audio_word.
Definition msg_arquivo_obrigatorio : list N :=
  lit "Arquivo de " ++ audio_word ++ lit " " ++ e_acute :: lit " "
    ++ obrigatorio ++ lit " (field: audio)".
Definition msg_voice_obrigatorio : list N :=
  lit "voice " ++ e_acute :: lit " " ++ obrigatorio.
Definition msg_erro_s2s : list N := lit "Erro no speech-to-speech".
Definition msg_projectName_obrigatorio : list N :=
  lit "projectName " ++ e_acute :: lit " " ++ obrigatorio.
Definition msg_projeto_ja_existe : list N :=
  lit "Projeto j" ++ a_acute :: lit " existe.".
Definition msg_pasta_criada (projectName : list N) : list N :=
  lit "Pasta do projeto '" ++ projectName ++ lit "' criada com sucesso!".
Definition msg_erro_criar_pasta : list N := lit "Erro ao criar pasta".

(** ** The server *)

Section Server.

#[local] Set Default Proof Using "Type".
#[local] Set Proof Using Clear Unused.

(** Unicode's default upper-casing of a one-unit string, for the code units
    the ASCII table below does not cover. *)
Variable unicode_upper : N -> list N.

(** The directory of [server.js], and the two environment variables read
    when the module is loaded. *)
Variable __dirname : list (list N).
Variable ELEVEN_API_KEY : option (list N).
Variable XI_API_KEY : option (list N).

(** The variable the client library itself falls back to when it is given
    no key. *)
Variable ELEVENLABS_API_KEY : option (list N).

(** [server.js] runs from its directory, so the names on the way to it are
    names the file system takes. *)
Hypothesis dirname_fits : Forall (fun s => name_fits s = true) __dirname.

(** *** [projectName.replace(/[^a-z0-9-_]/gi, '_')] *)

Definition toUppercase (ch : N) : list N :=
  if ch <? 128 then [ascii_upper ch] else unicode_upper ch.

(** [Canonicalize] of a pattern with the [i] flag and without [u]. *)
Definition Canonicalize (ch : N) : N :=
  match toUppercase ch with
  | [cu] => if (128 <=? ch) && (cu <? 128) then ch else cu
  | _ => ch
  end.

(** [CharacterSetMatcher]: whether the code unit [ch] is matched by the
    class [A], inverted or not. *)
Definition CharacterSetMatcher (A : list N) (invert : bool) (ch : N) : bool :=
  let found := existsb (fun a => Canonicalize a =? Canonicalize ch) A in
  if invert then negb found else found.

(** [s.replace(re, by_)] for a global pattern that matches single code
    units and a replacement without [$]. *)
Fixpoint replace_all (matches : N -> bool) (by_ : list N) (s : list N)
    : list N :=
  match s with
  | [] => []
  | c :: r =>
      if matches c then by_ ++ replace_all matches by_ r
      else c :: replace_all matches by_ r
  end.

Definition sanitize (projectName : list N) : list N :=
  replace_all (CharacterSetMatcher project_class true) (lit "_") projectName.

(** *** Directories *)

Definition PUBLIC_DIR : list (list N) := path_join __dirname (lit "public").
Definition AUDIOS_DIR : list (list N) := path_join PUBLIC_DIR (lit "audios").
Definition UPLOADS_DIR : list (list N) := path_join __dirname (lit "uploads").

(** [for (const d of ds) if (!existsSync(d)) mkdirSync(d, { recursive: true })] *)
Fixpoint ensureDirectories (ds : list (list (list N))) (fs : filesystem)
    : jserror + filesystem :=
  match ds with
  | [] => inr fs
  | d :: rest =>
      if existsSync fs d then ensureDirectories rest fs
      else match mkdir_recursive fs d with
           | inl e => inl e
           | inr fs' => ensureDirectories rest fs'
           end
  end.

Definition startup (fs : filesystem) : jserror + filesystem :=
  ensureDirectories [PUBLIC_DIR; AUDIOS_DIR; UPLOADS_DIR] fs.

(** *** The provider's key *)

Definition apiKey : jsval := env_value ELEVEN_API_KEY.
Definition ELEVEN_KEY : jsval := js_or apiKey (env_value XI_API_KEY).

(** [new ElevenLabsClient({ apiKey })]: the key is the option, or else the
    library's own variable ([apiKey ?? process.env.ELEVENLABS_API_KEY]);
    without either the constructor throws. *)
Definition new_ElevenLabsClient (apiKey : option (list N))
    : jserror + client_ref :=
  match apiKey, ELEVENLABS_API_KEY with
  | None, None => inl missing_api_key
  | _, _ => inr (Client apiKey)
  end.

(** [let elevenClient = null; if (ELEVEN_KEY) elevenClient = new ...]: a
    throw here stops the module from loading. *)
Definition elevenClient : jserror + client_ref :=
  if truthy ELEVEN_KEY then new_ElevenLabsClient ELEVEN_API_KEY
  else inr NullClient.

(** [new ElevenLabsClient({ apiKey }).voices.getAll()] and
    [new ElevenLabsClient({ apiKey }).generate(opts)]: what the two calls
    of [generateAudio] settle to, the building of the client included. *)
Definition voices_getAll (provider : tts_provider) (apiKey : option (list N))
    : jserror + list (list N) :=
  match new_ElevenLabsClient apiKey with
  | inl e => inl e
  | inr _ => client_voices_getAll provider apiKey
  end.

Definition generate (provider : tts_provider) (apiKey : option (list N))
    (voice text : jsval) : jserror + audio_stream :=
  match new_ElevenLabsClient apiKey with
  | inl e => inl e
  | inr _ => client_generate provider apiKey voice text
  end.

(** *** [saveBufferToPublic] *)

Definition saveBufferToPublic (buffer : list N) (filename : list N)
    : M (list N) :=
  let outPath := path_join AUDIOS_DIR filename in
  run fs_call (fun fs => writeFile fs outPath buffer) in
  ret (posix_join (lit "audios") filename).

(** [`tts-${Date.now()}.mp3`] and [`s2s-${Date.now()}.mp3`] *)
Definition artifact_filename (c : category) (now : Z) : list N :=
  category_prefix c ++ lit "-" ++ Number_toString now ++ lit ".mp3".

(** The lines that turn the provider's stream into a stored artifact:
    gather the chunks, concatenate them, name the file, save it. *)
Definition saveStream (gen : audio_stream) (now : Z) : M (list N) :=
  let* chunks := await (collect gen []) in
  let buffer := Buffer_concat chunks in
  let filename := artifact_filename Tts now in
  saveBufferToPublic buffer filename.

(** *** [POST /api/generateAudio] *)

Definition generateAudio (provider : tts_provider) (now : Z)
    (req : generateAudio_body) : M response :=
  try_catch
    (if negb (truthy (text req)) then
       ret (res_status_json 400 (JsonError msg_texto_obrigatorio None))
     else
       let* client := await (new_ElevenLabsClient ELEVEN_API_KEY) in
       let* voices := await (client_voices_getAll provider ELEVEN_API_KEY) in
       run console_log voices in
       if negb (client_truthy client) then
         ret (res_status_json 500 (JsonError msg_key_nao_configurada None))
       else
         let* gen :=
           await (client_generate provider ELEVEN_API_KEY
                    (js_or (voice req) VUndefined) (text req)) in
         let* publicPath := saveStream gen now in
         ret (res_json (JsonAudio publicPath)))
    (fun err =>
       run console_error (lit "generateAudio error") err in
       ret (res_status_json 500 (JsonError msg_erro_gerar_audio (Some err)))).

(** *** [POST /api/speech-to-speech] *)

Definition speech_to_speech (provider : sts_provider) (now : Z)
    (req : s2s_request) : M response :=
  try_catch
    (match file req with
     | None =>
         ret (res_status_json 400 (JsonError msg_arquivo_obrigatorio None))
     | Some f =>
         if negb (truthy (s2s_voice req)) then
           ret (res_status_json 400 (JsonError msg_voice_obrigatorio None))
         else if negb (truthy ELEVEN_KEY) then
           ret (res_status_json 500 (JsonError msg_key_nao_configurada None))
         else
           let inputPath := file_path f in
           let* data :=
             await (axios_post provider ELEVEN_KEY (s2s_voice req) inputPath) in
           let outBuffer := data in
           let filename := artifact_filename S2s now in
           let* publicPath := saveBufferToPublic outBuffer filename in
           run try_catch (fs_call (fun fs => unlink fs inputPath))
                 (fun e => ret tt) in
           ret (res_json (JsonAudio publicPath))
     end)
    (fun err =>
       run console_error (lit "speech-to-speech error") err in
       ret (res_status_json 500 (JsonError msg_erro_s2s (Some err)))).

(** *** [POST /api/createProject] *)

Definition projectFolderPath (name : list N) : list (list N) :=
  path_join PUBLIC_DIR (sanitize name).

Definition createProject (projectName : jsval) : M response :=
  try_catch
    (if negb (truthy projectName) then
       ret (res_status_json 400 (JsonError msg_projectName_obrigatorio None))
     else
       match projectName with
       | VString name =>
           let* found :=
             fs_read (fun fs => existsSync fs (projectFolderPath name)) in
           if (found : bool) then
             ret (res_json (JsonMessage msg_projeto_ja_existe))
           else
             run fs_call (fun fs => mkdir_recursive fs (projectFolderPath name)) in
             ret (res_json (JsonMessage (msg_pasta_criada name)))
       | _ => throw TypeError
       end)
    (fun err =>
       run console_error (lit "createProject error") err in
       ret (res_status_json 500 (JsonError msg_erro_criar_pasta None))).

(** A sequence of artifact writes of one category (the two lines that
    name the file after [Date.now()] and save it), one per clock reading,
    in the order the writes happen. *)
Fixpoint writeArtifacts (c : category) (calls : list (Z * list N))
    : M (list (list N)) :=
  match calls with
  | [] => ret []
  | (now, buffer) :: rest =>
      let* ref := saveBufferToPublic buffer (artifact_filename c now) in
      let* refs := writeArtifacts c rest in
      ret (ref :: refs)
  end.

(** *** The routes *)

Inductive route :=
  | GenerateAudio (provider : tts_provider) (req : generateAudio_body)
  | SpeechToSpeech (provider : sts_provider) (req : s2s_request)
  | CreateProject (projectName : jsval).

(** The handler a request is dispatched to; [now] is what [Date.now()]
    reads while it runs. *)
Definition handle (r : route) (now : Z) : M response :=
  match r with
  | GenerateAudio provider req => generateAudio provider now req
  | SpeechToSpeech provider req => speech_to_speech provider now req
  | CreateProject projectName => createProject projectName
  end.


(** *** multer's disk storage *)

(** The code units [\s] matches: white space and line terminators. *)
Definition is_space (c : N) : bool :=
  ((9 <=? c) && (c <=? 13)) || (c =? 32) || (c =? 160) || (c =? 5760)
  || ((8192 <=? c) && (c <=? 8202)) || (c =? 8232) || (c =? 8233)
  || (c =? 8239) || (c =? 8287) || (c =? 12288) || (c =? 65279).

(** [s.replace(re, by_)] for a global pattern [x+] over single code units:
    every maximal run of matching units becomes one [by_]. [in_run] tells
    that the unit before was part of the run being replaced. *)
Fixpoint replace_runs (matches : N -> bool) (by_ : list N) (in_run : bool)
    (s : list N) : list N :=
  match s with
  | [] => []
  | c :: r =>
      if matches c then
        (if in_run then replace_runs matches by_ true r
         else by_ ++ replace_runs matches by_ true r)
      else c :: replace_runs matches by_ false r
  end.

(** The [filename] callback of the storage:
    [Date.now() + '-' + file.originalname.replace(/\s+/g, '_')]. *)
Definition storage_filename (now : Z) (originalname : list N) : list N :=
  Number_toString now ++ lit "-"
    ++ replace_runs is_space (lit "_") false originalname.

(** Where the upload lands: the storage joins what its [destination]
    callback gives, [UPLOADS_DIR], with the file name. *)
Definition upload_path (now : Z) (originalname : list N) : list (list N) :=
  path_join UPLOADS_DIR (storage_filename now originalname).

(** *** [GET *] *)

Inductive page :=
  | SendFile (p : list (list N))
  | Send (status : N) (text : list N).

Definition fallback (fs : filesystem) : page :=
  let indexPath := path_join PUBLIC_DIR (lit "index.html") in
  if existsSync fs indexPath then SendFile indexPath
  else Send 404 (lit "Not Found").

(** A request whose upload, when it has one, lies in the uploads
    directory, where the storage puts it. *)
Definition upload_in_place (r : route) : Prop :=
  match r with
  | SpeechToSpeech _ req =>
      match file req with
      | Some f => exists seg, file_path f = UPLOADS_DIR ++ [seg]
      | None => True
      end
  | _ => True
  end.

(** *** The specification's vocabulary *)

(** The characters [A-Za-z0-9_-]. *)
Definition name_char (c : N) : bool :=
  ((48 <=? c) && (c <=? 57)) || ((65 <=? c) && (c <=? 90))
  || ((97 <=? c) && (c <=? 122)) || (c =? 45) || (c =? 95).

(** A file name that is one path segment: not empty, free of [/], and
    neither [.] nor [..]. *)
Definition plain_segment (s : list N) : Prop :=
  s <> [] /\ (slash ∉ s) /\ s <> lit "." /\ s <> lit "..".

(** The bytes a chunk of the stream carries. *)
Definition chunk_bytes (ch : chunk) : list N :=
  match ch with
  | OfBuffer bytes => bytes
  | OfUint8Array bytes => bytes
  end.

(** The response that reports the missing key. *)
Definition is_config_error (r : jserror + response) : bool :=
  match r with
  | inr {| status := st; body := JsonError e _ |} =>
      (st =? 500) && bool_decide (e = msg_key_nao_configurada)
  | _ => false
  end.

(** The code units of a decimal numeral: [-] and the digits. *)
Definition numeral_char (c : N) : bool :=
  (c =? 45) || ((48 <=? c) && (c <=? 57)).

(** *** A sample installation *)

(** The server in [/srv/app], its directories in place as [startup]
    leaves them, nothing stored yet. *)
Definition sample_dirname : list (list N) := [lit "srv"; lit "app"].
Definition sample_public : list (list N) := sample_dirname ++ [lit "public"].
Definition sample_audios : list (list N) := sample_public ++ [lit "audios"].
Definition sample_uploads : list (list N) := sample_dirname ++ [lit "uploads"].

Definition empty_fs : filesystem := {| dirs := ∅; files := ∅ |}.

Definition sample_fs : filesystem :=
  {| dirs := list_to_set (prefixes sample_audios ++ [sample_uploads]);
     files := ∅ |}.

Definition sample_world : world := {| fs := sample_fs; console := [] |}.

Definition sample_tick : Z := 1730000000000.

(** An upload as multer names it, and the world with it on disk. *)
Definition sample_upload : upload_file :=
  {| file_path := sample_uploads ++ [lit "1729999999000-voice.wav"];
     file_filename := lit "1729999999000-voice.wav" |}.

Definition sample_uploaded_world : world :=
  stored sample_world (file_path sample_upload) [82; 73; 70; 70].

Definition sample_s2s_request : s2s_request :=
  {| file := Some sample_upload; s2s_voice := VString (lit "v1") |}.

Definition sample_tts_request : generateAudio_body :=
  {| text := VString (lit "hello"); voice := VUndefined |}.

(** A provider that turns every call down, as it does for a key it does
    not know. *)
Definition unauthorized : jserror := Rejected (Some (lit "Status code: 401")).

Definition rejecting_tts : tts_provider :=
  {| client_voices_getAll := fun _ => inl unauthorized;
     client_generate := fun _ _ _ => inl unauthorized |}.

(** Providers that answer. *)
Definition streaming_tts (gen : audio_stream) : tts_provider :=
  {| client_voices_getAll := fun _ => inr [lit "Rachel"];
     client_generate := fun _ _ _ => inr gen |}.

Definition converting_sts : sts_provider :=
  {| axios_post := fun _ _ _ => inr [73; 68; 51] |}.

Definition sample_stream : audio_stream :=
  StreamChunk (OfBuffer [1; 2]) (StreamChunk (OfUint8Array [3]) StreamEnd).

Definition broken_stream : audio_stream :=
  StreamChunk (OfBuffer [1; 2]) (StreamThrow (Rejected (Some (lit "aborted")))).

(** The same installation before start-up, and two damaged ones: a
    regular file where the public directory should be, and a regular file
    where the audio directory should be. *)
Definition bare_world : world := {| fs := empty_fs; console := [] |}.


Definition audios_file_fs : filesystem :=
  {| dirs := list_to_set (prefixes sample_public ++ [sample_uploads]);
     files := {[ sample_audios := [] ]} |}.

Definition rejecting_sts : sts_provider :=
  {| axios_post := fun _ _ _ => inl unauthorized |}.

(** Upper-casing that leaves every unit above ASCII alone. *)
Definition identity_upper (c : N) : list N := [c].

(** The decimal digits. *)
Definition digit_char (c : N) : bool := (48 <=? c) && (c <=? 57).

(** ** Properties *)

(** *** Strings and paths *)

Lemma split_on_no_sep (sep : N) (s : list N) :
  sep ∉ s -> split_on sep s = [s].
Proof.
  induction s as [|c r IH]; intros Hs; [reflexivity|].
  apply not_elem_of_cons in Hs as [Hc Hr]. simpl.
  destruct (N.eqb_spec c sep) as [->|_]; [done|].
  by rewrite (IH Hr).
Qed.

Lemma split_on_app (sep : N) (a b : list N) :
  sep ∉ a -> split_on sep (a ++ sep :: b) = a :: split_on sep b.
Proof.
  induction a as [|c r IH]; intros Ha; simpl.
  - by rewrite N.eqb_refl.
  - apply not_elem_of_cons in Ha as [Hc Hr].
    destruct (N.eqb_spec c sep) as [->|_]; [done|].
    by rewrite (IH Hr).
Qed.

Lemma normalize_segment_plain (above : bool) (acc : list (list N)) (s : list N) :
  plain_segment s -> normalize_segment above acc s = acc ++ [s].
Proof.
  intros (Hne & _ & Hdot & Hdots). unfold normalize_segment.
  rewrite !bool_decide_eq_false_2 by done. reflexivity.
Qed.

Lemma path_join_plain (base : list (list N)) (s : list N) :
  plain_segment s -> path_join base s = base ++ [s].
Proof.
  intros Hs. unfold path_join.
  rewrite split_on_no_sep by apply Hs. simpl.
  by apply normalize_segment_plain.
Qed.

Lemma plain_segment_last (s : list N) :
  plain_segment s -> last s <> Some slash.
Proof.
  intros (Hne & Hs & _) Hl. apply Hs.
  apply last_Some in Hl as [l' ->]. set_solver.
Qed.

Lemma posix_join_audios (s : list N) :
  plain_segment s -> posix_join (lit "audios") s = lit "audios/" ++ s.
Proof.
  intros Hs. pose proof Hs as (Hne & Hsl & _).
  unfold posix_join. destruct s as [|c r]; [done|].
  change (lit "audios") with ([97; 117; 100; 105; 111; 115] : list N).
  cbn [app]. unfold posix_normalize.
  assert (Hlast : last (97 :: 117 :: 100 :: 105 :: 111 :: 115 :: slash :: c :: r)
                  = last (c :: r)) by reflexivity.
  rewrite Hlast, bool_decide_eq_false_2 by by apply plain_segment_last.
  change (97 =? slash) with false. cbn [negb].
  unfold normalize_segments.
  change (97 :: 117 :: 100 :: 105 :: 111 :: 115 :: slash :: c :: r)
    with ([97; 117; 100; 105; 111; 115] ++ slash :: c :: r).
  rewrite split_on_app by compute_done.
  rewrite split_on_no_sep by done.
  cbn [fold_left].
  rewrite (normalize_segment_plain true [] [97; 117; 100; 105; 111; 115])
    by (repeat split; [done | compute_done | done | done]).
  rewrite normalize_segment_plain by done.
  reflexivity.
Qed.

(** *** Numerals and file names *)

Lemma lit_inj (a b : string) : lit a = lit b -> a = b.
Proof.
  revert b. induction a as [|x a IH]; intros [|y b]; simpl; try done.
  intros [= Hxy Hab].
  rewrite <- (ascii_N_embedding x), <- (ascii_N_embedding y), Hxy.
  by rewrite (IH _ Hab).
Qed.

Lemma Number_toString_inj (a b : Z) :
  Number_toString a = Number_toString b -> a = b.
Proof.
  unfold Number_toString. intros H%lit_inj.
  apply DecimalZ.to_int_inj.
  apply (f_equal NilEmpty.int_of_string) in H.
  rewrite !NilEmpty.isi in H. congruence.
Qed.

Lemma string_of_uint_chars (d : Decimal.uint) :
  Forall (fun c => numeral_char c = true) (lit (NilEmpty.string_of_uint d)).
Proof. induction d; simpl; constructor; done. Qed.

Lemma Number_toString_chars (z : Z) :
  Forall (fun c => numeral_char c = true) (Number_toString z).
Proof.
  unfold Number_toString. destruct (Z.to_int z) as [d|d]; simpl.
  - apply string_of_uint_chars.
  - constructor; [done | apply string_of_uint_chars].
Qed.

Lemma numeral_not_slash (l : list N) :
  Forall (fun c => numeral_char c = true) l -> slash ∉ l.
Proof.
  intros Hl Hin. rewrite Forall_forall in Hl.
  by specialize (Hl _ Hin).
Qed.

Lemma artifact_filename_plain (c : category) (now : Z) :
  plain_segment (artifact_filename c now).
Proof.
  unfold artifact_filename, plain_segment.
  split_and!.
  - by destruct c.
  - pose proof (numeral_not_slash _ (Number_toString_chars now)) as Hn.
    rewrite !elem_of_app. intros [H|[H|[H|H]]]; [| |done|].
    + destruct c; revert H; compute_done.
    + revert H; compute_done.
    + revert H; compute_done.
  - by destruct c.
  - by destruct c.
Qed.

Lemma artifact_filename_inj (c : category) (a b : Z) :
  artifact_filename c a = artifact_filename c b -> a = b.
Proof.
  unfold artifact_filename. intros H.
  apply app_inv_head in H. apply app_inv_head in H.
  apply app_inv_tail in H. by apply Number_toString_inj.
Qed.

(** *** The character class *)

Lemma Canonicalize_ascii (c : N) : c < 128 -> Canonicalize c = ascii_upper c.
Proof.
  intros Hc. unfold Canonicalize, toUppercase.
  destruct (N.ltb_spec c 128) as [_|?]; [|lia].
  destruct (N.leb_spec 128 c) as [?|_]; [lia|]. reflexivity.
Qed.

Lemma ascii_upper_lt (c : N) : c < 128 -> ascii_upper c < 128.
Proof. unfold ascii_upper. intros. case_match; lia. Qed.

Lemma Canonicalize_high (c : N) : 128 <= c -> 128 <= Canonicalize c.
Proof.
  intros Hc. unfold Canonicalize.
  destruct (toUppercase c) as [|cu [|? ?]]; try done.
  destruct (N.leb_spec 128 c) as [_|?]; [|lia].
  destruct (N.ltb_spec cu 128); simpl; lia.
Qed.

Lemma project_class_ascii (a : N) : a ∈ project_class -> a < 128.
Proof.
  intros Ha. assert (H : Forall (fun a => a < 128) project_class).
  { unfold project_class, code_units. simpl. repeat constructor. }
  rewrite Forall_forall in H. by apply H.
Qed.

(** On the ASCII units the inverted class is checked unit by unit. *)
Lemma matcher_ascii_table :
  forallb (fun c => Bool.eqb (CharacterSetMatcher project_class true c)
                             (negb (name_char c)))
          (code_units 0 128) = true.
Proof. vm_compute. reflexivity. Qed.

Lemma matcher_ascii (c : N) :
  c < 128 -> CharacterSetMatcher project_class true c = negb (name_char c).
Proof.
  intros Hc. pose proof matcher_ascii_table as H.
  rewrite forallb_forall in H.
  apply Bool.eqb_prop, H. unfold code_units.
  apply in_map_iff. exists (N.to_nat c). split; [lia|].
  apply in_seq. lia.
Qed.

Lemma matcher_high (c : N) :
  128 <= c -> CharacterSetMatcher project_class true c = true.
Proof.
  intros Hc. unfold CharacterSetMatcher.
  apply negb_true_iff, not_true_is_false. intros H.
  apply existsb_exists in H as (a & Ha & Heq).
  apply N.eqb_eq in Heq.
  assert (a ∈ project_class) as Ha'%project_class_ascii
    by by apply list_elem_of_In.
  pose proof (Canonicalize_high c Hc).
  rewrite (Canonicalize_ascii a Ha') in Heq.
  pose proof (ascii_upper_lt a Ha'). lia.
Qed.

Lemma name_char_ascii (c : N) : name_char c = true -> c < 128.
Proof.
  unfold name_char.
  rewrite !orb_true_iff, !andb_true_iff, !N.leb_le, !N.eqb_eq. lia.
Qed.

(** The pattern matches exactly the code units outside [A-Za-z0-9_-]. *)
Lemma matcher_spec (c : N) :
  CharacterSetMatcher project_class true c = negb (name_char c).
Proof.
  destruct (N.lt_ge_cases c 128) as [Hc|Hc]; [by apply matcher_ascii|].
  rewrite matcher_high by done.
  destruct (name_char c) eqn:E; [|done].
  apply name_char_ascii in E. lia.
Qed.

Lemma sanitize_map (name : list N) :
  sanitize name = map (fun c => if name_char c then c else 95) name.
Proof.
  unfold sanitize. induction name as [|c r IH]; [done|].
  cbn [replace_all map]. rewrite matcher_spec, IH.
  by destruct (name_char c).
Qed.

Lemma sanitize_chars (name : list N) :
  Forall (fun c => name_char c = true) (sanitize name).
Proof.
  rewrite sanitize_map. apply Forall_map, Forall_forall. intros c _.
  simpl. by destruct (name_char c) eqn:E.
Qed.

Lemma sanitize_length (name : list N) : length (sanitize name) = length name.
Proof. rewrite sanitize_map. apply length_map. Qed.

Lemma name_chars_plain (s : list N) :
  s <> [] -> Forall (fun c => name_char c = true) s -> plain_segment s.
Proof.
  intros Hne Hs. rewrite Forall_forall in Hs.
  assert (H46 : 46 ∉ s) by (intros H%Hs; done).
  split_and!; [done | by intros H%Hs | |].
  - intros ->. apply H46. compute_done.
  - intros ->. apply H46. compute_done.
Qed.

Lemma sanitize_plain (name : list N) :
  name <> [] -> plain_segment (sanitize name).
Proof.
  intros Hne. apply name_chars_plain; [|apply sanitize_chars].
  intros H. apply (f_equal length) in H.
  rewrite sanitize_length in H. by destruct name.
Qed.

(** *** The file system *)

Lemma prefixes_self (p : list (list N)) : p <> [] -> p ∈ prefixes p.
Proof.
  intros Hp. unfold prefixes. apply list_elem_of_fmap.
  exists (length p). split; [by rewrite firstn_all|].
  apply list_elem_of_In, in_seq. destruct p; [done|simpl; lia].
Qed.

Lemma mkdir_recursive_is_dir (fs fs' : filesystem) (p : list (list N)) :
  mkdir_recursive fs p = inr fs' -> is_dir fs' p = true.
Proof.
  unfold mkdir_recursive. destruct (find _ _); [done|]. intros [= <-].
  unfold is_dir. simpl. destruct p as [|c r]; [done|].
  apply orb_true_iff. right. apply bool_decide_eq_true.
  apply elem_of_union_r, elem_of_list_to_set. by apply prefixes_self.
Qed.

Lemma mkdir_recursive_mono (fs fs' : filesystem) (p q : list (list N)) :
  mkdir_recursive fs p = inr fs' ->
  existsSync fs q = true -> existsSync fs' q = true.
Proof.
  unfold mkdir_recursive. destruct (find _ _); [done|]. intros [= <-].
  unfold existsSync, is_dir, is_file. simpl.
  rewrite !orb_true_iff, !bool_decide_eq_true.
  intros [[?|?]|?]; [by left; left | left; right; set_solver | by right].
Qed.

Lemma ensureDirectories_mono (ds : list (list (list N))) (fs fs' : filesystem)
    (q : list (list N)) :
  ensureDirectories ds fs = inr fs' ->
  existsSync fs q = true -> existsSync fs' q = true.
Proof.
  revert fs. induction ds as [|d rest IH]; intros fs; simpl.
  - by intros [= <-].
  - destruct (existsSync fs d); [by apply IH|].
    destruct (mkdir_recursive fs d) as [e|fs1] eqn:E; [done|].
    intros H Hq. apply (IH _ H). by apply (mkdir_recursive_mono _ _ _ _ E).
Qed.

Lemma ensureDirectories_all_exist (ds : list (list (list N)))
    (fs fs' : filesystem) :
  ensureDirectories ds fs = inr fs' ->
  Forall (fun d => existsSync fs' d = true) ds.
Proof.
  revert fs. induction ds as [|d rest IH]; intros fs; simpl; [done|].
  destruct (existsSync fs d) eqn:Ed.
  - intros H. constructor; [|by apply (IH _ H)].
    by apply (ensureDirectories_mono _ _ _ _ H).
  - destruct (mkdir_recursive fs d) as [e|fs1] eqn:E; [done|].
    intros H. constructor; [|by apply (IH _ H)].
    apply (ensureDirectories_mono _ _ _ _ H).
    unfold existsSync. by rewrite (mkdir_recursive_is_dir _ _ _ E).
Qed.

(** Directories that are all there already: nothing is created, nothing
    fails. *)
Lemma ensureDirectories_present (ds : list (list (list N))) (fs : filesystem) :
  Forall (fun d => existsSync fs d = true) ds ->
  ensureDirectories ds fs = inr fs.
Proof.
  induction 1 as [|d rest Hd _ IH]; simpl; [done|]. by rewrite Hd.
Qed.

Lemma PUBLIC_DIR_eq : PUBLIC_DIR = __dirname ++ [lit "public"].
Proof. reflexivity. Qed.

Lemma AUDIOS_DIR_eq : AUDIOS_DIR = __dirname ++ [lit "public"; lit "audios"].
Proof.
  unfold AUDIOS_DIR. rewrite PUBLIC_DIR_eq, path_join_plain, <- app_assoc;
    [done | repeat split; compute_done].
Qed.

Lemma artifact_path (c : category) (now : Z) :
  path_join AUDIOS_DIR (artifact_filename c now)
  = AUDIOS_DIR ++ [artifact_filename c now].
Proof. apply path_join_plain, artifact_filename_plain. Qed.

Lemma parent_snoc (p : list (list N)) (s : list N) : parent (p ++ [s]) = p.
Proof. apply removelast_last. Qed.

(** *** Storing artifacts *)

Lemma saveBufferToPublic_stores (c : category) (now : Z) (buffer : list N)
    (w : world) :
  is_dir (fs w) AUDIOS_DIR = true ->
  is_dir (fs w) (AUDIOS_DIR ++ [artifact_filename c now]) = false ->
  saveBufferToPublic buffer (artifact_filename c now) w
  = (inr (lit "audios/" ++ artifact_filename c now),
     stored w (AUDIOS_DIR ++ [artifact_filename c now]) buffer).
Proof.
  intros Hdir Hfree. unfold saveBufferToPublic, bind, fs_call, ret.
  rewrite artifact_path. unfold writeFile.
  rewrite Hfree, parent_snoc, Hdir.
  by rewrite posix_join_audios by apply artifact_filename_plain.
Qed.


Lemma saveBufferToPublic_throws (buffer filename : list N) (e : jserror)
    (w w' : world) :
  saveBufferToPublic buffer filename w = (inl e, w') -> w' = w.
Proof.
  unfold saveBufferToPublic, bind, fs_call, ret.
  destruct (writeFile _ _ _); by intros [= <- <-].
Qed.

Lemma collect_spec (gen : audio_stream) (chunks : list (list N)) :
  collect gen chunks
  = match outcome gen with
    | None => inr (chunks ++ map to_Buffer (yielded gen))
    | Some err => inl err
    end.
Proof.
  revert chunks. induction gen as [|ch rest IH|err]; intros chunks; simpl.
  - by rewrite app_nil_r.
  - rewrite IH. destruct (outcome rest); [done|].
    by rewrite <- app_assoc.
  - done.
Qed.

Lemma Buffer_concat_spec (chunks : list (list N)) :
  Buffer_concat chunks = List.concat chunks.
Proof. induction chunks as [|b rest IH]; simpl; by rewrite ?IH. Qed.

(** [ch instanceof Buffer ? ch : Buffer.from(ch)] keeps the bytes of the
    chunk. *)
Lemma to_Buffer_bytes (ch : chunk) : to_Buffer ch = chunk_bytes ch.
Proof. by destruct ch. Qed.

Lemma saveStream_spec (gen : audio_stream) (now : Z) (w : world) :
  is_dir (fs w) AUDIOS_DIR = true ->
  is_dir (fs w) (AUDIOS_DIR ++ [artifact_filename Tts now]) = false ->
  saveStream gen now w
  = match outcome gen with
    | None =>
        (inr (lit "audios/" ++ artifact_filename Tts now),
         stored w (AUDIOS_DIR ++ [artifact_filename Tts now])
           (List.concat (map to_Buffer (yielded gen))))
    | Some err => (inl err, w)
    end.
Proof.
  intros Hdir Hfree. unfold saveStream, bind, await.
  rewrite collect_spec. destruct (outcome gen); [done|].
  rewrite saveBufferToPublic_stores by done.
  by rewrite Buffer_concat_spec.
Qed.

(** *** The handlers *)

Ltac unfold_M :=
  unfold try_catch, bind, ret, throw, await, fs_read,
    console_log, console_error in *.


Lemma saveStream_throws (gen : audio_stream) (now : Z) (e : jserror)
    (w w' : world) :
  saveStream gen now w = (inl e, w') -> w' = w.
Proof.
  unfold saveStream. unfold_M. destruct (collect gen []); [by intros [= _ <-]|].
  apply saveBufferToPublic_throws.
Qed.

Lemma new_ElevenLabsClient_truthy (apiKey : option (list N))
    (c : client_ref) :
  new_ElevenLabsClient apiKey = inr c -> client_truthy c = true.
Proof.
  unfold new_ElevenLabsClient.
  destruct apiKey, ELEVENLABS_API_KEY; by intros [= <-].
Qed.

(** [generateAudio] through the two calls on the client, its building
    included. *)
Lemma generateAudio_calls (provider : tts_provider) (now : Z)
    (req : generateAudio_body) (w : world) :
  generateAudio provider now req w
  = try_catch
      (if negb (truthy (text req)) then
         ret (res_status_json 400 (JsonError msg_texto_obrigatorio None))
       else
         let* voices := await (voices_getAll provider ELEVEN_API_KEY) in
         run console_log voices in
         let* gen :=
           await (generate provider ELEVEN_API_KEY
                    (js_or (voice req) VUndefined) (text req)) in
         let* publicPath := saveStream gen now in
         ret (res_json (JsonAudio publicPath)))
      (fun err =>
         run console_error (lit "generateAudio error") err in
         ret (res_status_json 500 (JsonError msg_erro_gerar_audio (Some err))))
      w.
Proof.
  unfold generateAudio, voices_getAll, generate. unfold_M.
  destruct (truthy (text req)); [|done]. cbn [negb].
  destruct (new_ElevenLabsClient ELEVEN_API_KEY) as [e|c] eqn:E; [done|].
  rewrite (new_ElevenLabsClient_truthy _ _ E). cbn [negb].
  reflexivity.
Qed.

(** Without a key in [ELEVEN_API_KEY] and without the library's own
    variable, the constructor throws before any call to the provider: the
    [catch] logs the library's error and answers with it as [details]. *)
Lemma generateAudio_without_key (provider : tts_provider) (now : Z)
    (req : generateAudio_body) (w : world) :
  ELEVEN_API_KEY = None ->
  ELEVENLABS_API_KEY = None ->
  truthy (text req) = true ->
  generateAudio provider now req w
  = (inr (res_status_json 500
            (JsonError msg_erro_gerar_audio (Some missing_api_key))),
     logged w [ConsoleError (lit "generateAudio error") missing_api_key]).
Proof.
  intros Hk Hl Ht. unfold generateAudio, new_ElevenLabsClient. unfold_M.
  by rewrite Ht, Hk, Hl.
Qed.

(** [generateAudio] always answers, and never with the missing-key
    message: the client it builds is an object, so [!client] is false. *)
Lemma generateAudio_never_config_error (provider : tts_provider) (now : Z)
    (req : generateAudio_body) (w : world) :
  is_config_error (generateAudio provider now req w).1 = false.
Proof.
  rewrite generateAudio_calls. unfold_M.
  destruct (truthy (text req)); [|done]. simpl.
  destruct (voices_getAll provider ELEVEN_API_KEY); [done|].
  destruct (generate provider ELEVEN_API_KEY _ _); [done|].
  by destruct (saveStream _ _ _) as [[?|?] ?].
Qed.

Lemma generateAudio_responds (provider : tts_provider) (now : Z)
    (req : generateAudio_body) (w : world) :
  exists r w', generateAudio provider now req w = (inr r, w').
Proof.
  rewrite generateAudio_calls. unfold_M.
  destruct (truthy (text req)); [|by eauto]. simpl.
  destruct (voices_getAll provider ELEVEN_API_KEY); [by eauto|].
  destruct (generate provider ELEVEN_API_KEY _ _); [by eauto|].
  destruct (saveStream _ _ _) as [[?|?] ?]; by eauto.
Qed.

Lemma speech_to_speech_responds (provider : sts_provider) (now : Z)
    (req : s2s_request) (w : world) :
  exists r w', speech_to_speech provider now req w = (inr r, w').
Proof.
  unfold speech_to_speech. unfold_M.
  destruct (file req); [|by eauto].
  destruct (truthy (s2s_voice req)); [|by eauto].
  destruct (truthy ELEVEN_KEY); [|by eauto]. simpl.
  destruct (axios_post _ _ _ _); [by eauto|].
  destruct (saveBufferToPublic _ _ _) as [[?|?] ?]; [by eauto|].
  destruct (fs_call _ _) as [[?|?] ?]; by eauto.
Qed.

Lemma createProject_responds (projectName : jsval) (w : world) :
  exists r w', createProject projectName w = (inr r, w').
Proof.
  unfold createProject. unfold_M.
  destruct (truthy projectName); [|by eauto]. simpl.
  destruct projectName; try by eauto.
  destruct (existsSync _ _); [by eauto|].
  destruct (fs_call _ _) as [[?|?] ?]; by eauto.
Qed.

(** The missing key as [speech-to-speech] reports it, once the request
    itself is complete. *)
Lemma speech_to_speech_missing_key (provider : sts_provider) (now : Z)
    (req : s2s_request) (f : upload_file) (w : world) :
  file req = Some f ->
  truthy (s2s_voice req) = true ->
  truthy ELEVEN_KEY = false ->
  speech_to_speech provider now req w
  = (inr (res_status_json 500 (JsonError msg_key_nao_configurada None)), w).
Proof.
  intros Hf Hv Hk. unfold speech_to_speech. unfold_M.
  by rewrite Hf, Hv, Hk.
Qed.

(** C5. A [generateAudio] request whose body has no [text] is answered
    with status 400 and an error body, and the world (the file system in
    particular) is left as it was. *)
Theorem generateAudio_missing_text (provider : tts_provider) (now : Z)
    (req : generateAudio_body) (w : world) :
  text req = VUndefined ->
  generateAudio provider now req w
  = (inr (res_status_json 400 (JsonError msg_texto_obrigatorio None)), w).
Proof.
  intros Ht. rewrite generateAudio_calls. unfold_M. by rewrite Ht.
Qed.

(** C3. The chunks of the provider's stream are consumed to its end and
    stored as one buffer: the stored file holds the bytes of the first
    chunk, then those of the second, and so on, in the order they were
    produced; when the stream throws, nothing is stored and the handler's
    [catch] receives the very error the stream threw. *)
Theorem stream_stored_in_order (provider : tts_provider) (now : Z)
    (req : generateAudio_body) (w : world) (voices : list (list N))
    (gen : audio_stream) :
  truthy (text req) = true ->
  voices_getAll provider ELEVEN_API_KEY = inr voices ->
  generate provider ELEVEN_API_KEY (js_or (voice req) VUndefined) (text req)
    = inr gen ->
  is_dir (fs w) AUDIOS_DIR = true ->
  is_dir (fs w) (AUDIOS_DIR ++ [artifact_filename Tts now]) = false ->
  saveStream gen now w
  = match outcome gen with
    | None =>
        (inr (lit "audios/" ++ artifact_filename Tts now),
         stored w (AUDIOS_DIR ++ [artifact_filename Tts now])
           (List.concat (map chunk_bytes (yielded gen))))
    | Some err => (inl err, w)
    end
  /\ generateAudio provider now req w
     = match outcome gen with
       | None =>
           (inr (res_json (JsonAudio (lit "audios/" ++ artifact_filename Tts now))),
            stored (logged w [ConsoleLog voices])
              (AUDIOS_DIR ++ [artifact_filename Tts now])
              (List.concat (map chunk_bytes (yielded gen))))
       | Some err =>
           (inr (res_status_json 500 (JsonError msg_erro_gerar_audio (Some err))),
            logged (logged w [ConsoleLog voices])
              [ConsoleError (lit "generateAudio error") err])
       end.
Proof.
  intros Ht Hv Hg Hdir Hfree.
  rewrite <- (map_ext _ _ to_Buffer_bytes).
  split; [by apply saveStream_spec|].
  rewrite generateAudio_calls. unfold_M. rewrite Ht, Hv, Hg. cbn [negb client_truthy].
  rewrite (saveStream_spec gen now (logged w [ConsoleLog voices])) by done.
  by destruct (outcome gen).
Qed.


(** C7. Providing the directories is idempotent: once a first pass has
    succeeded, a second pass over the same paths succeeds too and changes
    nothing, every path being found in place and skipped. *)
Theorem ensureDirectories_idempotent (ds : list (list (list N)))
    (fs fs' : filesystem) :
  ensureDirectories ds fs = inr fs' ->
  ensureDirectories ds fs' = inr fs'
  /\ Forall (fun d => existsSync fs' d = true) ds.
Proof.
  intros H. pose proof (ensureDirectories_all_exist _ _ _ H) as Hall.
  split; [by apply ensureDirectories_present | done].
Qed.

(** *** Project directories *)

Lemma prefixes_snoc (p : list (list N)) (s : list N) :
  prefixes (p ++ [s]) = prefixes p ++ [p ++ [s]].
Proof.
  unfold prefixes. rewrite length_app. simpl length.
  rewrite seq_app, map_app. simpl. f_equal.
  - apply map_ext_in. intros n [_ Hn]%in_seq.
    rewrite take_app_le by lia. done.
  - f_equal. apply take_ge. rewrite length_app. simpl. lia.
Qed.

Lemma projectFolderPath_eq (name : list N) :
  name <> [] -> projectFolderPath name = PUBLIC_DIR ++ [sanitize name].
Proof. intros H. by apply path_join_plain, sanitize_plain. Qed.

Lemma existsSync_false (fs : filesystem) (p : list (list N)) :
  existsSync fs p = false -> is_dir fs p = false /\ is_file fs p = false.
Proof. unfold existsSync. apply orb_false_elim. Qed.

Lemma find_app_none {A} (f : A -> bool) (l l' : list A) :
  Forall (fun x => f x = false) l -> find f (l ++ l') = find f l'.
Proof. induction 1 as [|x l Hx _ IH]; [done|]. simpl. by rewrite Hx. Qed.

Lemma last_name_snoc (p : list (list N)) (s : list N) :
  last_name (p ++ [s]) = s.
Proof. unfold last_name. by rewrite last_snoc. Qed.

Lemma last_name_prefixes (p q : list (list N)) :
  q ∈ prefixes p -> last_name q ∈ p.
Proof.
  induction p as [|s p IH] using rev_ind; [by intros H%elem_of_nil|].
  rewrite prefixes_snoc, elem_of_app, list_elem_of_singleton.
  intros [H| ->].
  - apply elem_of_app. left. by apply IH.
  - rewrite last_name_snoc. apply elem_of_app. right. by left.
Qed.

Lemma prefixes_not_blocked (fs : filesystem) (p : list (list N)) :
  Forall (fun s => name_fits s = true) p ->
  Forall (fun q => is_file fs q = false) (prefixes p) ->
  Forall (fun q => blocked fs q = false) (prefixes p).
Proof.
  rewrite !Forall_forall. intros Hfit Hfile q Hq. unfold blocked.
  by rewrite (Hfile q Hq), (Hfit _ (last_name_prefixes _ _ Hq)).
Qed.

Lemma PUBLIC_DIR_fits : Forall (fun s => name_fits s = true) PUBLIC_DIR.
Proof using __dirname dirname_fits.
  rewrite PUBLIC_DIR_eq. apply Forall_app. split; [exact dirname_fits|].
  by repeat constructor.
Qed.

Lemma utf8_length_ascii (s : list N) :
  Forall (fun c => c < 128) s -> utf8_length s = N.of_nat (length s).
Proof.
  induction 1 as [|c r Hc _ IH]; [done|]. cbn [utf8_length length].
  destruct (N.ltb_spec c 128); [|lia]. rewrite IH. lia.
Qed.

(** A sanitized name is in ASCII: it takes as many bytes as the name has
    code units. *)
Lemma sanitize_fits (name : list N) :
  name_fits (sanitize name) = (length name <=? 255)%nat.
Proof.
  unfold name_fits, NAME_MAX. rewrite utf8_length_ascii, sanitize_length.
  - destruct (Nat.leb_spec (length name) 255), (N.leb_spec (N.of_nat (length name)) 255);
      try done; lia.
  - eapply Forall_impl; [apply sanitize_chars|]. apply name_char_ascii.
Qed.

Lemma mkdir_recursive_child (fs : filesystem) (p : list (list N)) (s : list N) :
  Forall (fun q => blocked fs q = false) (prefixes p) ->
  existsSync fs (p ++ [s]) = false ->
  name_fits s = true ->
  mkdir_recursive fs (p ++ [s])
  = inr {| dirs := dirs fs ∪ list_to_set (prefixes (p ++ [s]));
           files := files fs |}.
Proof.
  intros Hp [_ Hs]%existsSync_false Hfit. unfold mkdir_recursive.
  rewrite prefixes_snoc at 1. rewrite find_app_none by done.
  cbn [find]. unfold blocked. by rewrite Hs, last_name_snoc, Hfit.
Qed.

Lemma mkdir_recursive_long (fs : filesystem) (p : list (list N)) (s : list N) :
  Forall (fun q => blocked fs q = false) (prefixes p) ->
  existsSync fs (p ++ [s]) = false ->
  name_fits s = false ->
  mkdir_recursive fs (p ++ [s])
  = inl (SystemError ENAMETOOLONG (p ++ [s])).
Proof.
  intros Hp [_ Hs]%existsSync_false Hfit. unfold mkdir_recursive.
  rewrite prefixes_snoc at 1. rewrite find_app_none by done.
  cbn [find]. unfold blocked. rewrite Hs, last_name_snoc, Hfit.
  cbn [orb negb]. by rewrite Hs.
Qed.

Lemma createProject_existing (name : list N) (w : world) :
  name <> [] ->
  existsSync (fs w) (projectFolderPath name) = true ->
  createProject (VString name) w
  = (inr (res_json (JsonMessage msg_projeto_ja_existe)), w).
Proof.
  intros Hne Hex. unfold createProject. unfold_M. simpl.
  rewrite bool_decide_eq_false_2 by done. simpl. by rewrite Hex.
Qed.

Lemma createProject_fresh (name : list N) (w : world) :
  name <> [] ->
  Forall (fun q => is_file (fs w) q = false) (prefixes PUBLIC_DIR) ->
  existsSync (fs w) (projectFolderPath name) = false ->
  (length name <= 255)%nat ->
  createProject (VString name) w
  = (inr (res_json (JsonMessage (msg_pasta_criada name))),
     made w (projectFolderPath name)).
Proof using __dirname dirname_fits unicode_upper.
  intros Hne Hpub Hex Hlen. unfold createProject. unfold_M. simpl.
  rewrite bool_decide_eq_false_2 by done. simpl. rewrite Hex.
  unfold fs_call. rewrite projectFolderPath_eq in * by done.
  rewrite mkdir_recursive_child; [done | | done |].
  - by apply prefixes_not_blocked; [apply PUBLIC_DIR_fits|].
  - rewrite sanitize_fits. by apply Nat.leb_le.
Qed.

Lemma createProject_too_long (name : list N) (w : world) :
  Forall (fun q => is_file (fs w) q = false) (prefixes PUBLIC_DIR) ->
  existsSync (fs w) (projectFolderPath name) = false ->
  (255 < length name)%nat ->
  createProject (VString name) w
  = (inr (res_status_json 500 (JsonError msg_erro_criar_pasta None)),
     logged w [ConsoleError (lit "createProject error")
                 (SystemError ENAMETOOLONG (projectFolderPath name))]).
Proof using __dirname dirname_fits unicode_upper.
  intros Hpub Hex Hlen.
  assert (Hne : name <> []) by (intros ->; simpl in Hlen; lia).
  unfold createProject. unfold_M. simpl.
  rewrite bool_decide_eq_false_2 by done. simpl. rewrite Hex.
  unfold fs_call. rewrite projectFolderPath_eq in * by done.
  rewrite mkdir_recursive_long; [done | | done |].
  - by apply prefixes_not_blocked; [apply PUBLIC_DIR_fits|].
  - rewrite sanitize_fits. apply Nat.leb_gt. lia.
Qed.

(** C4. The project name is sanitized by turning every code unit outside
    [A-Za-z0-9_-] into [_] ([My Project!] becomes [My_Project_]). When the
    directory of that name is there, it is reported by a message of its
    own and nothing is created or changed. When it is not there, it is
    created under the public directory, unless the name is longer than
    the 255 units the file system takes: then the answer is 500 and
    nothing is created. A second call finds the directory whenever it was
    there or could be created. *)
Theorem createProject_sanitizes_and_signals (name : list N) (w : world) :
  name <> [] ->
  Forall (fun q => is_file (fs w) q = false) (prefixes PUBLIC_DIR) ->
  let dir := PUBLIC_DIR ++ [map (fun c => if name_char c then c else 95) name] in
  let already := res_json (JsonMessage msg_projeto_ja_existe) in
  let created := res_json (JsonMessage (msg_pasta_criada name)) in
  let refused := res_status_json 500 (JsonError msg_erro_criar_pasta None) in
  let too_long :=
    ConsoleError (lit "createProject error") (SystemError ENAMETOOLONG dir) in
  sanitize (lit "My Project!") = lit "My_Project_"
  /\ projectFolderPath name = dir
  /\ createProject (VString name) w
     = (if existsSync (fs w) dir then (inr already, w)
        else if (length name <=? 255)%nat then (inr created, made w dir)
        else (inr refused, logged w [too_long]))
  /\ (let w1 := (createProject (VString name) w).2 in
      createProject (VString name) w1
      = if existsSync (fs w) dir || (length name <=? 255)%nat
        then (inr already, w1)
        else (inr refused, logged w1 [too_long]))
  /\ already <> created.
Proof using __dirname dirname_fits unicode_upper.
  intros Hne Hpub dir already created refused too_long.
  assert (Hdir : projectFolderPath name = dir).
  { rewrite projectFolderPath_eq by done. unfold dir. by rewrite sanitize_map. }
  assert (Hcall : createProject (VString name) w
     = (if existsSync (fs w) dir then (inr already, w)
        else if (length name <=? 255)%nat then (inr created, made w dir)
        else (inr refused, logged w [too_long]))).
  { unfold too_long. rewrite <- Hdir. destruct (existsSync _ _) eqn:Hex.
    - by apply createProject_existing.
    - destruct (Nat.leb_spec (length name) 255).
      + by apply createProject_fresh.
      + by apply createProject_too_long. }
  split_and!; [by vm_compute | done | done | | ].
  - rewrite Hcall. cbv zeta.
    destruct (existsSync (fs w) dir) eqn:Hex; cbn [snd orb].
    + apply createProject_existing; [done|]. by rewrite Hdir.
    + destruct (Nat.leb_spec (length name) 255) as [Hlen|Hlen]; cbn [snd].
      * apply createProject_existing; [done|].
        unfold existsSync. apply orb_true_iff. left.
        apply (mkdir_recursive_is_dir (fs w)).
        rewrite Hdir. unfold dir in *. rewrite <- sanitize_map in *.
        apply mkdir_recursive_child; [|done|].
        -- by apply prefixes_not_blocked; [apply PUBLIC_DIR_fits|].
        -- rewrite sanitize_fits. by apply Nat.leb_le.
      * unfold too_long. rewrite <- Hdir.
        apply createProject_too_long; [done | by rewrite Hdir | done].
  - unfold already, created, res_json. by intros [= H].
Qed.

(** C10. Whatever [projectName] holds, [createProject] leaves the files
    alone and either leaves the directories alone too or creates exactly
    the directory [PUBLIC_DIR/<sanitized name>], whose name is one path
    segment made of [A-Za-z0-9_-] only: no separator and no dot occur in
    it, so its parent is the public directory itself. *)
Theorem createProject_no_traversal (projectName : jsval) (w : world) :
  let w' := (createProject projectName w).2 in
  files (fs w') = files (fs w)
  /\ match projectName with
     | VString name =>
         Forall (fun c => name_char c = true) (sanitize name)
         /\ (slash ∉ sanitize name) /\ (46 ∉ sanitize name)
     | _ => True
     end
  /\ (fs w' = fs w
      \/ exists name,
           projectName = VString name
           /\ sanitize name <> []
           /\ projectFolderPath name = PUBLIC_DIR ++ [sanitize name]
           /\ parent (projectFolderPath name) = PUBLIC_DIR
           /\ dirs (fs w')
              = dirs (fs w) ∪ list_to_set (prefixes (PUBLIC_DIR ++ [sanitize name]))).
Proof.
  cbv zeta. unfold createProject. unfold_M.
  destruct (truthy projectName) eqn:Ht; cbn [negb].
  2:{ cbn [snd]. split_and!; [done| |by left].
      destruct projectName as [| |b|z|name|]; try done.
      simpl in Ht. apply negb_false_iff, bool_decide_eq_true in Ht as ->.
      split_and!; [constructor | apply not_elem_of_nil..]. }
  destruct projectName as [| |b|z|name|]; try by auto.
  assert (Hne : name <> []).
  { simpl in Ht. by apply negb_true_iff, bool_decide_eq_false in Ht. }
  pose proof (sanitize_chars name) as Hchars.
  pose proof (sanitize_plain name Hne) as (Hs & Hslash & _).
  assert (H46 : 46 ∉ sanitize name).
  { rewrite Forall_forall in Hchars. by intros H%Hchars. }
  destruct (existsSync _ _) eqn:Hex; [by auto|].
  unfold fs_call, mkdir_recursive.
  destruct (find _ _); simpl; [by auto|].
  split_and!; try done. right. exists name.
  rewrite projectFolderPath_eq by done.
  by rewrite parent_snoc.
Qed.

(** *** Temporary uploads *)

(** C9 (as the code has it). Once the converted audio is stored,
    [speech-to-speech] tries to delete the uploaded file; whether the
    deletion succeeds or fails, the answer is the successful one and the
    console is left as it was: a failure is dropped, not logged. *)
Theorem temp_upload_cleanup_silent (provider : sts_provider) (now : Z)
    (req : s2s_request) (f : upload_file) (data : list N) (w : world) :
  file req = Some f ->
  truthy (s2s_voice req) = true ->
  truthy ELEVEN_KEY = true ->
  axios_post provider ELEVEN_KEY (s2s_voice req) (file_path f) = inr data ->
  is_dir (fs w) AUDIOS_DIR = true ->
  is_dir (fs w) (AUDIOS_DIR ++ [artifact_filename S2s now]) = false ->
  let w1 := stored w (AUDIOS_DIR ++ [artifact_filename S2s now]) data in
  speech_to_speech provider now req w
  = (inr (res_json (JsonAudio (lit "audios/" ++ artifact_filename S2s now))),
     match unlink (fs w1) (file_path f) with
     | inr fs2 => {| fs := fs2; console := console w |}
     | inl _ => w1
     end).
Proof.
  intros Hf Hv Hk Hp Hdir Hfree w1.
  unfold speech_to_speech. unfold_M. rewrite Hf, Hv, Hk. cbn [negb].
  rewrite Hp, saveBufferToPublic_stores by done.
  unfold fs_call. fold w1. by destruct (unlink (fs w1) (file_path f)).
Qed.

(** *** Writes *)

Lemma writeArtifacts_frame (c : category) (calls : list (Z * list N))
    (w w' : world) (refs : list (list N)) (p : list (list N)) :
  writeArtifacts c calls w = (inr refs, w') ->
  p ∉ map (fun call => AUDIOS_DIR ++ [artifact_filename c call.1]) calls ->
  files (fs w') !! p = files (fs w) !! p.
Proof.
  revert w refs. induction calls as [|[now buffer] rest IH]; intros w refs.
  - by intros [= _ <-].
  - cbn [writeArtifacts map fst]. unfold_M.
    unfold saveBufferToPublic at 1. unfold bind, fs_call, ret.
    rewrite artifact_path.
    destruct (writeFile _ _ _) as [e|fs1] eqn:Ew; [done|].
    destruct (writeArtifacts c rest _) as [[e|refs'] w2] eqn:Er; [done|].
    intros [= _ <-] [Hp Hrest]%not_elem_of_cons.
    rewrite (IH _ _ Er Hrest). cbn [fs].
    unfold writeFile in Ew. repeat case_match; try done.
    injection Ew as <-. cbn [files]. by rewrite lookup_insert_ne.
Qed.

(** C1 (as the code has it). Writes of one category whose clock readings
    are pairwise distinct get pairwise distinct file names, all of them
    succeed, and afterwards every one of the files holds the bytes of its
    own write: none was overwritten. *)
Theorem writeArtifacts_distinct_ticks (c : category)
    (calls : list (Z * list N)) (w : world) :
  is_dir (fs w) AUDIOS_DIR = true ->
  Forall (fun call =>
            is_dir (fs w) (AUDIOS_DIR ++ [artifact_filename c call.1]) = false)
         calls ->
  NoDup (map fst calls) ->
  NoDup (map (fun call => artifact_filename c call.1) calls)
  /\ exists w',
       writeArtifacts c calls w
       = (inr (map (fun call => lit "audios/" ++ artifact_filename c call.1)
                   calls), w')
       /\ dirs (fs w') = dirs (fs w)
       /\ Forall (fun call =>
                    files (fs w') !! (AUDIOS_DIR ++ [artifact_filename c call.1])
                    = Some call.2)
                 calls.
Proof.
  intros Hdir Hfree Hnd. split.
  { rewrite <- (map_map fst (artifact_filename c)).
    apply NoDup_fmap_2; [|done]. intros a b. apply artifact_filename_inj. }
  revert w Hdir Hfree Hnd.
  induction calls as [|[now buffer] rest IH]; intros w Hdir Hfree Hnd.
  - exists w. by repeat split.
  - apply Forall_cons in Hfree as [Hnow Hfree].
    apply NoDup_cons in Hnd as [Hfresh Hnd]. cbn [fst] in *.
    set (p := AUDIOS_DIR ++ [artifact_filename c now]) in *.
    destruct (IH (stored w p buffer)) as (w' & Hrun & Hdirs & Hall);
      [done | done | done |].
    exists w'. cbn [writeArtifacts map fst]. unfold bind at 1.
    rewrite saveBufferToPublic_stores by done. fold p.
    unfold bind at 1. rewrite Hrun. unfold ret.
    split_and!; [done | done |].
    constructor; [|done]. cbn [fst snd]. fold p.
    rewrite (writeArtifacts_frame _ _ _ _ _ p Hrun).
    + apply lookup_insert_eq.
    + intros Hin. apply Hfresh.
      apply list_elem_of_fmap in Hin as ([now' buffer'] & Heq & Hin).
      unfold p in Heq. apply app_inv_head in Heq. injection Heq as Heq.
      apply artifact_filename_inj in Heq as ->.
      apply list_elem_of_fmap. by exists (now', buffer').
Qed.

(** While [buffer] is being written to [p], a reader finds the file as it
    was, or a prefix of [buffer], or all of it. *)
Lemma write_step_invariant (p : list (list N)) (buffer : list N)
    (fs0 fs1 : filesystem) (st : write_state) :
  rtc (write_step p) (fs0, Opening buffer) (fs1, st) ->
  match st with
  | Opening data => data = buffer /\ fs1 = fs0
  | Writing rest =>
      exists written,
        written ++ rest = buffer
        /\ fs1 = {| dirs := dirs fs0; files := <[p := written]> (files fs0) |}
  | Closed =>
      fs1 = {| dirs := dirs fs0; files := <[p := buffer]> (files fs0) |}
  end.
Proof.
  set (Inv := fun s : filesystem * write_state =>
    match s.2 with
    | Opening data => data = buffer /\ s.1 = fs0
    | Writing rest =>
        exists written,
          written ++ rest = buffer
          /\ s.1 = {| dirs := dirs fs0; files := <[p := written]> (files fs0) |}
    | Closed =>
        s.1 = {| dirs := dirs fs0; files := <[p := buffer]> (files fs0) |}
    end).
  intros Hrun. change (Inv (fs1, st)). revert Hrun. generalize (fs1, st).
  apply (rtc_ind_r Inv); [done|].
  intros [fsa sta] [fsb stb] _ Hstep IH. unfold Inv in *. cbn [fst snd] in *.
  inversion Hstep as [fsx data Hd Hpar|fsx written part rest Hne Hw|fsx];
    subst.
  - destruct IH as [-> ->]. by exists [].
  - destruct IH as (written0 & <- & ->).
    cbn [files] in Hw. rewrite lookup_insert_eq in Hw. injection Hw as <-.
    exists (written0 ++ part). split; [by rewrite <- app_assoc|].
    cbn [dirs files]. by rewrite insert_insert_eq.
  - destruct IH as (written0 & <- & ->). by rewrite app_nil_r.
Qed.

Lemma write_step_completes (p : list (list N)) (buffer : list N)
    (fs0 : filesystem) :
  is_dir fs0 p = false ->
  is_dir fs0 (parent p) = true ->
  rtc (write_step p) (fs0, Opening buffer)
    ({| dirs := dirs fs0; files := <[p := buffer]> (files fs0) |}, Closed).
Proof.
  intros Hp Hpar. eapply rtc_l; [by apply step_open|].
  destruct buffer as [|b rest].
  - apply rtc_once, step_close.
  - eapply rtc_l.
    + rewrite <- (app_nil_r (b :: rest)).
      apply (step_write p _ [] (b :: rest) []); [done|].
      cbn [files]. apply lookup_insert_eq.
    + cbn [dirs files app]. rewrite insert_insert_eq.
      apply rtc_once, step_close.
Qed.

(** C8 (as the code has it). [saveBufferToPublic] returns only when the
    whole buffer is in the file its reference names. It writes that file
    in place: from the moment the file is opened until it is closed, what
    a reader finds at the path is a prefix of the buffer, which grows
    until it is the buffer itself. *)
Theorem saveBufferToPublic_written_on_return (buffer filename : list N)
    (w : world) :
  let p := path_join AUDIOS_DIR filename in
  is_dir (fs w) p = false ->
  is_dir (fs w) (parent p) = true ->
  saveBufferToPublic buffer filename w
  = (inr (posix_join (lit "audios") filename), stored w p buffer)
  /\ visible (fs (stored w p buffer)) p = Some buffer
  /\ rtc (write_step p) (fs w, Opening buffer) (fs (stored w p buffer), Closed)
  /\ forall fs1 st,
       rtc (write_step p) (fs w, Opening buffer) (fs1, st) ->
       match st with
       | Opening _ => fs1 = fs w
       | Writing rest =>
           exists written,
             written ++ rest = buffer
             /\ visible fs1 p = Some written
             /\ fs1 = fs (stored w p written)
       | Closed => fs1 = fs (stored w p buffer)
       end.
Proof.
  intros p Hp Hpar. split_and!.
  - unfold saveBufferToPublic, bind, fs_call, ret, writeFile. fold p.
    by rewrite Hp, Hpar.
  - apply lookup_insert_eq.
  - by apply write_step_completes.
  - intros fs1 st Hrun. apply write_step_invariant in Hrun.
    destruct st as [data|rest|]; [by destruct Hrun | | done].
    destruct Hrun as (written & Hw & ->). exists written.
    split_and!; [done | apply lookup_insert_eq | done].
Qed.

(** ** Further properties *)

(** *** Project names *)

Lemma sanitize_clean (name : list N) :
  Forall (fun c => name_char c = true) name -> sanitize name = name.
Proof.
  intros H. rewrite sanitize_map.
  induction H as [|c r Hc _ IH]; [done|]. simpl. by rewrite Hc, IH.
Qed.

(** X1. A name is left as it is exactly when it is made of [A-Za-z0-9_-]
    only. *)
Theorem sanitize_fixes_clean_names (name : list N) :
  sanitize name = name <-> Forall (fun c => name_char c = true) name.
Proof.
  split; [|apply sanitize_clean]. intros <-. apply sanitize_chars.
Qed.

(** X2. Sanitizing twice is sanitizing once, and the length never changes. *)
Theorem sanitize_idempotent (name : list N) :
  sanitize (sanitize name) = sanitize name
  /\ length (sanitize name) = length name.
Proof.
  split; [|apply sanitize_length]. apply sanitize_clean, sanitize_chars.
Qed.

Lemma createProject_then_exists (name : list N) (w : world) :
  name <> [] ->
  Forall (fun q => is_file (fs w) q = false) (prefixes PUBLIC_DIR) ->
  (length name <= 255)%nat ->
  existsSync (fs (createProject (VString name) w).2) (projectFolderPath name)
  = true.
Proof using __dirname dirname_fits unicode_upper.
  intros Hne Hpub Hlen.
  destruct (existsSync (fs w) (projectFolderPath name)) eqn:Hex.
  - by rewrite createProject_existing.
  - rewrite createProject_fresh by done. cbn [snd].
    unfold existsSync. apply orb_true_iff. left.
    apply (mkdir_recursive_is_dir (fs w)).
    rewrite projectFolderPath_eq in * by done.
    apply mkdir_recursive_child; [|done|].
    + by apply prefixes_not_blocked; [apply PUBLIC_DIR_fits|].
    + rewrite sanitize_fits. by apply Nat.leb_le.
Qed.

(** X3. Two project names with the same sanitized form, of at most 255
    units, share one directory: once the first is created, the second is
    reported as existing and nothing more is created. *)
Theorem createProject_names_collide (name1 name2 : list N) (w : world) :
  name1 <> [] -> name2 <> [] ->
  (length name1 <= 255)%nat ->
  sanitize name1 = sanitize name2 ->
  Forall (fun q => is_file (fs w) q = false) (prefixes PUBLIC_DIR) ->
  let w1 := (createProject (VString name1) w).2 in
  projectFolderPath name1 = projectFolderPath name2
  /\ createProject (VString name2) w1
     = (inr (res_json (JsonMessage msg_projeto_ja_existe)), w1).
Proof using __dirname dirname_fits unicode_upper.
  intros H1 H2 Hlen Hs Hpub w1.
  assert (Hp : projectFolderPath name1 = projectFolderPath name2)
    by (unfold projectFolderPath; by rewrite Hs).
  split; [done|]. apply createProject_existing; [done|]. rewrite <- Hp.
  by apply createProject_then_exists.
Qed.

(** *** Artifact names *)

(** X4. The name of an artifact tells its category and its clock reading: a
    [tts] file and an [s2s] file never share a name. *)
Theorem artifact_filename_inj_category (c1 c2 : category) (a b : Z) :
  artifact_filename c1 a = artifact_filename c2 b -> c1 = c2 /\ a = b.
Proof.
  destruct c1, c2; intros H; try (by split; [|apply (artifact_filename_inj _ _ _ H)]);
    by injection H.
Qed.

(** *** Names of uploads *)

Lemma split_unique (sep : N) (l1 l2 r1 r2 : list N) :
  sep ∉ l1 -> sep ∉ l2 ->
  l1 ++ sep :: r1 = l2 ++ sep :: r2 -> l1 = l2 /\ r1 = r2.
Proof.
  revert l2. induction l1 as [|a l1 IH]; intros [|b l2] H1 H2 H; simpl in H.
  - by injection H.
  - injection H as <- _. exfalso. apply H2. by left.
  - injection H as -> _. exfalso. apply H1. by left.
  - injection H as <- H. apply not_elem_of_cons in H1 as [_ H1].
    apply not_elem_of_cons in H2 as [_ H2].
    destruct (IH _ H1 H2 H) as [-> ->]. done.
Qed.

Lemma string_of_uint_digits (d : Decimal.uint) :
  Forall (fun c => digit_char c = true) (lit (NilEmpty.string_of_uint d)).
Proof. induction d; simpl; constructor; done. Qed.

(** A numeral is an optional [-] and then at least one digit. *)
Lemma Number_toString_shape (z : Z) :
  exists ds,
    ds <> [] /\ Forall (fun c => digit_char c = true) ds
    /\ Number_toString z = if (z <? 0)%Z then 45 :: ds else ds.
Proof.
  unfold Number_toString. destruct z as [|p|p]; simpl.
  - exists [48]. split_and!; [done | by repeat constructor | done].
  - exists (lit (NilEmpty.string_of_uint (Pos.to_uint p))).
    split_and!; [|apply string_of_uint_digits|done].
    pose proof (DecimalPos.Unsigned.to_uint_nonnil p).
    by destruct (Pos.to_uint p).
  - exists (lit (NilEmpty.string_of_uint (Pos.to_uint p))).
    split_and!; [|apply string_of_uint_digits|done].
    pose proof (DecimalPos.Unsigned.to_uint_nonnil p).
    by destruct (Pos.to_uint p).
Qed.

Lemma digits_no_minus (ds : list N) :
  Forall (fun c => digit_char c = true) ds -> 45 ∉ ds.
Proof. intros H Hin. rewrite Forall_forall in H. by apply H in Hin. Qed.

(** A numeral followed by [-] can be read back: what follows the [-]
    does not blur where the numeral ends. *)
Lemma numeral_prefix_inj (a b : Z) (x y : list N) :
  Number_toString a ++ 45 :: x = Number_toString b ++ 45 :: y ->
  a = b /\ x = y.
Proof.
  intros H.
  destruct (Number_toString_shape a) as (da & Hna & Hda & Ea).
  destruct (Number_toString_shape b) as (db & Hnb & Hdb & Eb).
  assert (Number_toString a = Number_toString b /\ x = y) as [E ->].
  { rewrite Ea, Eb in *.
    destruct (a <? 0)%Z, (b <? 0)%Z; simpl in H.
    - injection H as H.
      by destruct (split_unique 45 da db x y) as [-> ->];
        auto using digits_no_minus.
    - destruct db as [|c db]; [done|]. injection H as <- _.
      by apply Forall_cons in Hdb as [? _].
    - destruct da as [|c da]; [done|]. injection H as -> _.
      by apply Forall_cons in Hda as [? _].
    - by destruct (split_unique 45 da db x y) as [-> ->];
        auto using digits_no_minus. }
  split; [by apply Number_toString_inj | done].
Qed.

Lemma replace_runs_no_match (matches : N -> bool) (b : bool) (s : list N) :
  matches 95 = false ->
  Forall (fun c => matches c = false) (replace_runs matches (lit "_") b s).
Proof.
  intros H95. revert b. induction s as [|c r IH]; intros b; simpl; [done|].
  destruct (matches c) eqn:E.
  - destruct b; [apply IH|]. constructor; [done|apply IH].
  - constructor; [done|apply IH].
Qed.

Lemma replace_runs_no_sep (matches : N -> bool) (b : bool) (sep : N)
    (s : list N) :
  sep <> 95 -> sep ∉ s -> sep ∉ replace_runs matches (lit "_") b s.
Proof.
  intros Hsep. revert b. induction s as [|c r IH]; intros b Hs; simpl; [done|].
  apply not_elem_of_cons in Hs as [Hc Hr].
  destruct (matches c); [destruct b|]; simpl;
    rewrite ?not_elem_of_cons; auto.
Qed.

Lemma replace_runs_length (matches : N -> bool) (b : bool) (s : list N) :
  (length (replace_runs matches (lit "_") b s) <= length s)%nat.
Proof.
  revert b. induction s as [|c r IH]; intros b; [done|].
  cbn [replace_runs]. destruct (matches c); [destruct b|];
    rewrite ?length_app; cbn [length].
  - specialize (IH true). lia.
  - specialize (IH true). change (length (lit "_")) with 1%nat. lia.
  - specialize (IH false). lia.
Qed.

(** X5. The stored name of an upload holds no white space, whatever the name
    the client gave, and is at most as long as the clock reading, the [-]
    and that name together. *)
Theorem storage_filename_no_space (now : Z) (originalname : list N) :
  Forall (fun c => is_space c = false) (storage_filename now originalname)
  /\ (length (storage_filename now originalname)
      <= length (Number_toString now) + 1 + length originalname)%nat.
Proof.
  unfold storage_filename. split.
  - rewrite !Forall_app. split_and!.
    + eapply Forall_impl; [apply Number_toString_chars|].
      intros c Hc. unfold numeral_char in Hc. unfold is_space.
      rewrite !orb_true_iff, !andb_true_iff, !N.leb_le, !N.eqb_eq in Hc.
      rewrite !orb_false_iff, !andb_false_iff, !N.leb_gt, !N.eqb_neq. lia.
    + by repeat constructor.
    + by apply replace_runs_no_match.
  - rewrite !length_app. change (length (lit "-")) with 1%nat.
    pose proof (replace_runs_length is_space false originalname). lia.
Qed.

(** X6. Uploads stored at different clock readings get different names, and
    the clock reading can be read back from the name. *)
Theorem storage_filename_tick_inj (a b : Z) (name1 name2 : list N) :
  storage_filename a name1 = storage_filename b name2 -> a = b.
Proof.
  unfold storage_filename. intros H. by apply numeral_prefix_inj in H as [? _].
Qed.

Lemma storage_filename_plain (now : Z) (originalname : list N) :
  slash ∉ originalname -> plain_segment (storage_filename now originalname).
Proof.
  intros Hs. unfold storage_filename.
  destruct (Number_toString_shape now) as (ds & Hne & Hds & E).
  assert (Hnum : slash ∉ Number_toString now)
    by apply numeral_not_slash, Number_toString_chars.
  assert (Hrun : slash ∉ replace_runs is_space (lit "_") false originalname)
    by by apply replace_runs_no_sep.
  assert (H46 : 46 ∉ Number_toString now).
  { pose proof (Number_toString_chars now) as H. rewrite Forall_forall in H.
    by intros Hin%H. }
  split_and!.
  - rewrite E. destruct ds; [done|]. by destruct (now <? 0)%Z.
  - rewrite !elem_of_app. intros [?|[H|?]]; [done| |done].
    revert H. compute_done.
  - destruct (Number_toString now) as [|c r]; [by rewrite E in Hne; destruct (now <? 0)%Z|].
    intros [= -> _]. apply H46. by left.
  - destruct (Number_toString now) as [|c r]; [by rewrite E in Hne; destruct (now <? 0)%Z|].
    intros [= -> _]. apply H46. by left.
Qed.

(** X7. When the client's file name holds no [/], the upload lands directly in
    the uploads directory. *)
Theorem upload_path_child (now : Z) (originalname : list N) :
  slash ∉ originalname ->
  upload_path now originalname
  = UPLOADS_DIR ++ [storage_filename now originalname]
  /\ parent (upload_path now originalname) = UPLOADS_DIR.
Proof.
  intros Hs. unfold upload_path.
  rewrite path_join_plain by by apply storage_filename_plain.
  split; [done | apply parent_snoc].
Qed.

(** *** [createProject]: what is turned down *)

(** X8. A [projectName] that is not a string creates nothing: it is answered
    with 400 when it is falsy ([undefined], [null], [false], [0]) and with
    500, the failed call of [replace] logged, when it is truthy (a number,
    [true], an array, an object). *)
Theorem createProject_rejects_non_strings (projectName : jsval) (w : world) :
  (forall name, projectName <> VString name) ->
  createProject projectName w
  = if truthy projectName then
      (inr (res_status_json 500 (JsonError msg_erro_criar_pasta None)),
       logged w [ConsoleError (lit "createProject error") TypeError])
    else
      (inr (res_status_json 400 (JsonError msg_projectName_obrigatorio None)),
       w).
Proof.
  intros Hns. unfold createProject. unfold_M.
  destruct projectName as [| |[]|z|name|]; try done.
  - simpl. by destruct (Z.eqb z 0).
  - by destruct (Hns name).
Qed.




(** *** [generateAudio]: failures and effects *)

(** X10. The list of voices is only printed, yet the request depends on it:
    when [voices.getAll()] fails the answer is 500 with that error,
    whatever [generate] would have returned, and nothing is stored. *)
Theorem generateAudio_voices_failure (provider : tts_provider) (now : Z)
    (req : generateAudio_body) (w : world) (err : jserror) :
  truthy (text req) = true ->
  voices_getAll provider ELEVEN_API_KEY = inl err ->
  generateAudio provider now req w
  = (inr (res_status_json 500 (JsonError msg_erro_gerar_audio (Some err))),
     logged w [ConsoleError (lit "generateAudio error") err]).
Proof.
  intros Ht Hv. rewrite generateAudio_calls. unfold_M. by rewrite Ht, Hv.
Qed.

Lemma AUDIOS_DIR_snoc : AUDIOS_DIR = PUBLIC_DIR ++ [lit "audios"].
Proof. apply path_join_plain. repeat split; compute_done. Qed.

Lemma walk_errno_missing (fs : filesystem) (p : list (list N)) :
  Forall (fun q => is_file fs q = false) (prefixes p) ->
  walk_errno fs p = ENOENT.
Proof.
  intros Hp. unfold walk_errno. destruct (find _ _) as [q|] eqn:E; [|done].
  apply find_some in E as [Hin _]. rewrite Forall_forall in Hp.
  by rewrite (Hp q) by by apply list_elem_of_In.
Qed.

(** X11. When the audio directory is missing and no regular file sits on
    the way to it, a stream that was read to its end is lost: the write
    fails with [ENOENT], the answer is 500 with that error, and the file
    system is left as it was. *)
Theorem generateAudio_store_failure (provider : tts_provider) (now : Z)
    (req : generateAudio_body) (w : world) (voices : list (list N))
    (gen : audio_stream) :
  truthy (text req) = true ->
  voices_getAll provider ELEVEN_API_KEY = inr voices ->
  generate provider ELEVEN_API_KEY (js_or (voice req) VUndefined) (text req)
    = inr gen ->
  outcome gen = None ->
  existsSync (fs w) AUDIOS_DIR = false ->
  Forall (fun q => is_file (fs w) q = false) (prefixes PUBLIC_DIR) ->
  is_dir (fs w) (AUDIOS_DIR ++ [artifact_filename Tts now]) = false ->
  let err := SystemError ENOENT (AUDIOS_DIR ++ [artifact_filename Tts now]) in
  generateAudio provider now req w
  = (inr (res_status_json 500 (JsonError msg_erro_gerar_audio (Some err))),
     logged (logged w [ConsoleLog voices])
       [ConsoleError (lit "generateAudio error") err]).
Proof.
  intros Ht Hv Hg Ho [Hd Hf]%existsSync_false Hpub Hfree err.
  rewrite generateAudio_calls. unfold_M. rewrite Ht, Hv, Hg. cbn [negb].
  unfold saveStream. unfold_M. rewrite collect_spec, Ho.
  unfold saveBufferToPublic, bind, fs_call, ret.
  rewrite artifact_path. unfold writeFile. cbn [logged fs].
  rewrite Hfree, parent_snoc, Hd, walk_errno_missing; [done|].
  rewrite AUDIOS_DIR_snoc, prefixes_snoc, <- AUDIOS_DIR_snoc.
  apply Forall_app. split; [done|]. by repeat constructor.
Qed.

Lemma concat_all_empty (l : list (list N)) :
  Forall (fun b => b = []) l -> List.concat l = [].
Proof. induction 1 as [|b l -> _ IH]; [done|]. by simpl. Qed.

(** X12. The audio is stored as it comes, an empty one included: when the
    stream ends without a byte, a file of length zero is stored and the
    answer is the successful one. *)
Theorem generateAudio_empty_audio (provider : tts_provider) (now : Z)
    (req : generateAudio_body) (w : world) (voices : list (list N))
    (gen : audio_stream) :
  truthy (text req) = true ->
  voices_getAll provider ELEVEN_API_KEY = inr voices ->
  generate provider ELEVEN_API_KEY (js_or (voice req) VUndefined) (text req)
    = inr gen ->
  outcome gen = None ->
  Forall (fun ch => to_Buffer ch = []) (yielded gen) ->
  is_dir (fs w) AUDIOS_DIR = true ->
  is_dir (fs w) (AUDIOS_DIR ++ [artifact_filename Tts now]) = false ->
  generateAudio provider now req w
  = (inr (res_json (JsonAudio (lit "audios/" ++ artifact_filename Tts now))),
     stored (logged w [ConsoleLog voices])
       (AUDIOS_DIR ++ [artifact_filename Tts now]) []).
Proof.
  intros Ht Hv Hg Ho Hempty Hdir Hfree.
  rewrite generateAudio_calls. unfold_M. rewrite Ht, Hv, Hg. cbn [negb client_truthy].
  rewrite (saveStream_spec gen now (logged w [ConsoleLog voices])) by done.
  rewrite Ho, concat_all_empty; [done|]. by apply Forall_map.
Qed.

Lemma saveBufferToPublic_effect (buffer filename : list N) (w w' : world)
    (r : jserror + list N) :
  saveBufferToPublic buffer filename w = (r, w') ->
  match r with
  | inl _ => w' = w
  | inr _ => w' = stored w (path_join AUDIOS_DIR filename) buffer
  end.
Proof.
  unfold saveBufferToPublic, bind, fs_call, ret, writeFile.
  destruct (is_dir (fs w) (path_join AUDIOS_DIR filename));
    [by intros [= <- <-]|].
  destruct (is_dir (fs w) (parent (path_join AUDIOS_DIR filename)));
    by intros [= <- <-].
Qed.

Lemma saveStream_effect (gen : audio_stream) (now : Z) (w w' : world)
    (r : jserror + list N) :
  saveStream gen now w = (r, w') ->
  match r with
  | inl _ => w' = w
  | inr _ =>
      exists content,
        w' = stored w (AUDIOS_DIR ++ [artifact_filename Tts now]) content
  end.
Proof.
  unfold saveStream. unfold_M. destruct (collect gen []) as [e|chunks].
  - by intros [= <- <-].
  - intros H%saveBufferToPublic_effect. rewrite artifact_path in H.
    destruct r; [done|]. by eexists.
Qed.

(** X13. [generateAudio] changes at most one file, the artifact named after its
    own clock reading; it creates and removes no directory, and touches no
    other file. *)
Theorem generateAudio_only_writes_artifact (provider : tts_provider)
    (now : Z) (req : generateAudio_body) (w : world) :
  let w' := (generateAudio provider now req w).2 in
  dirs (fs w') = dirs (fs w)
  /\ forall p,
       p <> AUDIOS_DIR ++ [artifact_filename Tts now] ->
       files (fs w') !! p = files (fs w) !! p.
Proof.
  cbv zeta. rewrite generateAudio_calls. unfold_M.
  destruct (truthy (text req)); [|done]. cbn [negb].
  destruct (voices_getAll provider ELEVEN_API_KEY); [done|].
  cbn [negb client_truthy].
  destruct (generate provider ELEVEN_API_KEY _ _); [done|].
  destruct (saveStream _ _ _) as [[e|ref] w1] eqn:E;
    apply saveStream_effect in E.
  - by subst.
  - destruct E as [content ->]. split; [done|]. intros p Hp.
    cbn. by rewrite lookup_insert_ne.
Qed.

(** *** [speech-to-speech]: checks, failures and effects *)

Lemma UPLOADS_DIR_eq : UPLOADS_DIR = __dirname ++ [lit "uploads"].
Proof. reflexivity. Qed.

Lemma upload_not_artifact (seg : list N) (c : category) (now : Z) :
  UPLOADS_DIR ++ [seg] <> AUDIOS_DIR ++ [artifact_filename c now].
Proof.
  rewrite UPLOADS_DIR_eq, AUDIOS_DIR_eq, <- !app_assoc.
  intros H%app_inv_head. discriminate H.
Qed.

(** X16. The request is checked before the key is: without a file, or with a
    file and without a voice, the answer is 400 and nothing else happens,
    whether a key is configured or not. *)
Theorem speech_to_speech_validation_first (provider : sts_provider) (now : Z)
    (req : s2s_request) (w : world) :
  file req = None \/ truthy (s2s_voice req) = false ->
  speech_to_speech provider now req w
  = (inr (res_status_json 400
            (JsonError (match file req with
                        | None => msg_arquivo_obrigatorio
                        | Some _ => msg_voice_obrigatorio
                        end) None)), w).
Proof.
  intros H. unfold speech_to_speech. unfold_M.
  destruct (file req); [|done]. destruct H as [?| ->]; done.
Qed.

(** X17. When the provider turns the conversion down, the answer is 500 with
    the provider's error and the uploaded file stays on disk: the handler
    deletes it only after a successful conversion. *)
Theorem speech_to_speech_failure_keeps_upload (provider : sts_provider)
    (now : Z) (req : s2s_request) (f : upload_file) (err : jserror)
    (w : world) :
  file req = Some f ->
  truthy (s2s_voice req) = true ->
  truthy ELEVEN_KEY = true ->
  axios_post provider ELEVEN_KEY (s2s_voice req) (file_path f) = inl err ->
  speech_to_speech provider now req w
  = (inr (res_status_json 500 (JsonError msg_erro_s2s (Some err))),
     logged w [ConsoleError (lit "speech-to-speech error") err])
  /\ visible (fs (speech_to_speech provider now req w).2) (file_path f)
     = visible (fs w) (file_path f).
Proof.
  intros Hf Hv Hk Hp.
  assert (speech_to_speech provider now req w
          = (inr (res_status_json 500 (JsonError msg_erro_s2s (Some err))),
             logged w [ConsoleError (lit "speech-to-speech error") err])) as E.
  { unfold speech_to_speech. unfold_M. by rewrite Hf, Hv, Hk, Hp. }
  split; [done|]. by rewrite E.
Qed.

(** X18. A successful conversion of an upload that lies in the uploads
    directory stores the converted audio and removes the upload: every
    other file and every directory is as before, and nothing is logged. *)
Theorem speech_to_speech_success_effect (provider : sts_provider) (now : Z)
    (req : s2s_request) (f : upload_file) (seg data original : list N)
    (w : world) :
  file req = Some f ->
  truthy (s2s_voice req) = true ->
  truthy ELEVEN_KEY = true ->
  axios_post provider ELEVEN_KEY (s2s_voice req) (file_path f) = inr data ->
  is_dir (fs w) AUDIOS_DIR = true ->
  is_dir (fs w) (AUDIOS_DIR ++ [artifact_filename S2s now]) = false ->
  file_path f = UPLOADS_DIR ++ [seg] ->
  files (fs w) !! file_path f = Some original ->
  speech_to_speech provider now req w
  = (inr (res_json (JsonAudio (lit "audios/" ++ artifact_filename S2s now))),
     {| fs := {| dirs := dirs (fs w);
                 files := delete (file_path f)
                            (<[AUDIOS_DIR ++ [artifact_filename S2s now] := data]>
                               (files (fs w))) |};
        console := console w |}).
Proof.
  intros Hf Hv Hk Hp Hdir Hfree Hup Horig.
  unfold speech_to_speech. unfold_M. rewrite Hf, Hv, Hk. cbn [negb].
  rewrite Hp, saveBufferToPublic_stores by done.
  unfold fs_call, unlink. cbn [stored fs files dirs].
  rewrite lookup_insert_ne, Horig; [done|].
  rewrite Hup. intros H. by apply (upload_not_artifact seg S2s now).
Qed.

Lemma ELEVEN_KEY_falsy :
  truthy ELEVEN_KEY = false
  <-> (ELEVEN_API_KEY = None \/ ELEVEN_API_KEY = Some [])
      /\ (XI_API_KEY = None \/ XI_API_KEY = Some []).
Proof.
  unfold ELEVEN_KEY, js_or, apiKey, env_value.
  destruct ELEVEN_API_KEY as [[|c k]|], XI_API_KEY as [[|c' k']|]; simpl;
    (split; [intros H; try done; split; auto
            | intros [[?|?] [?|?]]; congruence]).
Qed.

(** X19. For a request with a file and a voice, the missing-key answer is given
    exactly when neither [ELEVEN_API_KEY] nor [XI_API_KEY] holds a
    non-empty string: either variable is enough, an empty one counts as
    unset. *)
Theorem speech_to_speech_key_check (provider : sts_provider) (now : Z)
    (req : s2s_request) (f : upload_file) (w : world) :
  file req = Some f ->
  truthy (s2s_voice req) = true ->
  is_config_error (speech_to_speech provider now req w).1 = true
  <-> (ELEVEN_API_KEY = None \/ ELEVEN_API_KEY = Some [])
      /\ (XI_API_KEY = None \/ XI_API_KEY = Some []).
Proof.
  intros Hf Hv. rewrite <- ELEVEN_KEY_falsy.
  unfold speech_to_speech. unfold_M. rewrite Hf, Hv. cbn [negb].
  destruct (truthy ELEVEN_KEY); cbn [negb]; [|done].
  destruct (axios_post _ _ _ _); [done|].
  destruct (saveBufferToPublic _ _ _) as [[?|?] ?]; [done|].
  by destruct (fs_call _ _) as [[?|?] ?].
Qed.

(** *** All handlers *)




(** *** The fallback page *)

Lemma indexPath_eq :
  path_join PUBLIC_DIR (lit "index.html") = PUBLIC_DIR ++ [lit "index.html"].
Proof. apply path_join_plain. repeat split; compute_done. Qed.

Lemma prefixes_length (p q : list (list N)) :
  q ∈ prefixes p -> (length q <= length p)%nat.
Proof.
  unfold prefixes. intros (n & -> & _)%list_elem_of_fmap.
  rewrite length_take. lia.
Qed.

Lemma fallback_same (fs1 fs2 : filesystem) :
  (PUBLIC_DIR ++ [lit "index.html"] ∈ dirs fs1
   <-> PUBLIC_DIR ++ [lit "index.html"] ∈ dirs fs2) ->
  files fs1 !! (PUBLIC_DIR ++ [lit "index.html"])
  = files fs2 !! (PUBLIC_DIR ++ [lit "index.html"]) ->
  fallback fs1 = fallback fs2.
Proof.
  intros Hd Hf. unfold fallback. rewrite indexPath_eq.
  unfold existsSync, is_dir, is_file. rewrite Hf.
  by rewrite (bool_decide_ext _ _ Hd).
Qed.

Lemma index_not_artifact (c : category) (now : Z) :
  AUDIOS_DIR ++ [artifact_filename c now] <> PUBLIC_DIR ++ [lit "index.html"].
Proof.
  rewrite AUDIOS_DIR_eq, PUBLIC_DIR_eq, <- !app_assoc.
  intros H%app_inv_head. discriminate H.
Qed.

Lemma index_not_upload (seg : list N) :
  UPLOADS_DIR ++ [seg] <> PUBLIC_DIR ++ [lit "index.html"].
Proof.
  rewrite UPLOADS_DIR_eq, PUBLIC_DIR_eq, <- !app_assoc.
  intros H%app_inv_head. discriminate H.
Qed.

Lemma index_not_project (name : list N) :
  PUBLIC_DIR ++ [lit "index.html"] ∉ prefixes (PUBLIC_DIR ++ [sanitize name]).
Proof.
  rewrite prefixes_snoc, elem_of_app. intros [H|H].
  - apply prefixes_length in H. rewrite length_app in H. simpl in H. lia.
  - apply list_elem_of_singleton, app_inv_head in H. injection H as H.
    pose proof (sanitize_chars name) as Hc. rewrite <- H in Hc.
    rewrite Forall_forall in Hc. by specialize (Hc 46 ltac:(compute_done)).
Qed.

(** X15. No request to the three routes changes what the fallback route
    serves: whether [public/index.html] is found is the same before and
    after, whatever the request holds. *)
Theorem handlers_keep_fallback (r : route) (now : Z) (w : world) :
  upload_in_place r ->
  fallback (fs (handle r now w).2) = fallback (fs w).
Proof.
  destruct r as [provider req|provider req|projectName]; cbn [handle].
  - intros _. rewrite generateAudio_calls. unfold_M.
    destruct (truthy (text req)); cbn [negb]; [|done].
    destruct (voices_getAll provider ELEVEN_API_KEY); [done|].
    cbn [negb client_truthy].
    destruct (generate provider ELEVEN_API_KEY _ _); [done|].
    destruct (saveStream _ _ _) as [[e|ref] w1] eqn:E;
      apply saveStream_effect in E; [by subst|].
    destruct E as [content ->]. apply fallback_same; [done|].
    cbn [snd stored fs files]. apply lookup_insert_ne, index_not_artifact.
  - unfold upload_in_place, speech_to_speech. unfold_M.
    destruct (file req) as [f|]; [|done]. intros [seg Hseg].
    destruct (truthy (s2s_voice req)); cbn [negb]; [|done].
    destruct (truthy ELEVEN_KEY); cbn [negb]; [|done].
    destruct (axios_post _ _ _ _); [done|].
    destruct (saveBufferToPublic _ _ _) as [[e|ref] w1] eqn:E;
      apply saveBufferToPublic_effect in E; subst w1; [done|].
    rewrite artifact_path. unfold fs_call, unlink.
    destruct (files _ !! file_path f); cbn [snd]; apply fallback_same;
      try done; cbn [snd stored fs files].
    + rewrite lookup_delete_ne by (rewrite Hseg; apply index_not_upload).
      apply lookup_insert_ne, index_not_artifact.
    + apply lookup_insert_ne, index_not_artifact.
  - intros _. unfold createProject. unfold_M.
    destruct (truthy projectName) eqn:Ht; cbn [negb]; [|done].
    destruct projectName as [| | | |name|]; try done.
    assert (Hne : name <> []).
    { simpl in Ht. by apply negb_true_iff, bool_decide_eq_false in Ht. }
    destruct (existsSync _ _); [done|].
    unfold fs_call, mkdir_recursive. destruct (find _ _); [done|].
    apply fallback_same; [|done]. cbn [snd fs dirs].
    rewrite projectFolderPath_eq by done.
    rewrite elem_of_union, elem_of_list_to_set.
    pose proof (index_not_project name). tauto.
Qed.

(** *** Start-up *)

Lemma is_file_files (fs1 fs2 : filesystem) (p : list (list N)) :
  files fs1 = files fs2 -> is_file fs1 p = is_file fs2 p.
Proof. unfold is_file. by intros ->. Qed.

Lemma existsSync_grows (fs1 fs2 : filesystem) (p : list (list N)) :
  files fs1 = files fs2 -> dirs fs1 ⊆ dirs fs2 ->
  existsSync fs1 p = true -> existsSync fs2 p = true.
Proof.
  intros Hf Hd. unfold existsSync, is_dir. rewrite (is_file_files fs1 fs2) by done.
  rewrite !orb_true_iff, !bool_decide_eq_true. set_solver.
Qed.

(** What a pass over [ds] does to the file system: files stay, directories
    are only added, and only those of the paths that were not there. *)
Lemma ensureDirectories_effect (ds : list (list (list N)))
    (fs fs' : filesystem) :
  ensureDirectories ds fs = inr fs' ->
  files fs' = files fs
  /\ dirs fs ⊆ dirs fs'
  /\ dirs fs' ⊆ dirs fs
       ∪ list_to_set (filter (fun d => existsSync fs d = false) ds ≫= prefixes).
Proof.
  revert fs. induction ds as [|d rest IH]; intros fs; simpl.
  - intros [= <-]. set_solver.
  - destruct (existsSync fs d) eqn:Ed.
    + intros H%IH. rewrite filter_cons_False by (rewrite Ed; done). done.
    + rewrite filter_cons_True by done.
      unfold mkdir_recursive. destruct (find _ _); [done|].
      intros (Hf & Hsub & Hsup)%IH. cbn [files dirs] in *.
      split_and!; [done | set_solver |].
      etransitivity; [exact Hsup|]. rewrite bind_cons, list_to_set_app.
      assert (filter (fun d0 => existsSync
                {| dirs := dirs fs ∪ list_to_set (prefixes d); files := files fs |}
                d0 = false) rest
              ⊆ filter (fun d0 => existsSync fs d0 = false) rest) as Hfil.
      { intros x [Hx Hin]%list_elem_of_filter. apply list_elem_of_filter.
        split; [|done]. apply not_true_is_false. intros Hex.
        rewrite (existsSync_grows fs _ x) in Hx; [done|done|set_solver|done]. }
      assert (forall l1 l2 : list (list (list N)), l1 ⊆ l2 ->
                (list_to_set (l1 ≫= prefixes) : gset _)
                ⊆ list_to_set (l2 ≫= prefixes)) as Hmono.
      { intros l1 l2 Hl q. rewrite !elem_of_list_to_set, !list_elem_of_bind.
        intros (y & ? & ?). exists y. split; [done|by apply Hl]. }
      specialize (Hmono _ _ Hfil). set_solver.
Qed.

Lemma blocked_false (fs : filesystem) (q : list (list N)) :
  blocked fs q = false -> is_file fs q = false.
Proof. unfold blocked. by intros [? _]%orb_false_iff. Qed.

Lemma blocked_files (fs1 fs2 : filesystem) (q : list (list N)) :
  files fs1 = files fs2 -> blocked fs1 q = blocked fs2 q.
Proof. intros H. unfold blocked. by rewrite (is_file_files fs1 fs2). Qed.

Lemma mkdir_recursive_clear (fs : filesystem) (d : list (list N)) :
  Forall (fun q => blocked fs q = false) (prefixes d) ->
  mkdir_recursive fs d
  = inr {| dirs := dirs fs ∪ list_to_set (prefixes d); files := files fs |}.
Proof.
  intros Hd. unfold mkdir_recursive.
  destruct (find _ _) as [q|] eqn:E; [|done].
  apply find_some in E as [Hin Hf]. rewrite Forall_forall in Hd.
  apply list_elem_of_In, Hd in Hin. congruence.
Qed.

Lemma ensureDirectories_succeeds (ds : list (list (list N))) (fs : filesystem) :
  Forall (fun d => Forall (fun q => blocked fs q = false) (prefixes d)) ds ->
  exists fs',
    ensureDirectories ds fs = inr fs'
    /\ Forall (fun d => is_dir fs' d = true) ds.
Proof.
  revert fs. induction ds as [|d rest IH]; intros fs Hall; simpl.
  - by exists fs.
  - apply Forall_cons in Hall as [Hd Hrest].
    destruct (existsSync fs d) eqn:Ed.
    + destruct (IH fs Hrest) as (fs' & Hrun & Hdirs). exists fs'.
      split; [done|]. constructor; [|done].
      destruct (ensureDirectories_effect _ _ _ Hrun) as (_ & Hsub & _).
      assert (Hdir : is_dir fs d = true).
      { unfold existsSync in Ed. apply orb_true_iff in Ed as [?|Hf]; [done|].
        destruct d as [|c r] eqn:E; [done|]. rewrite Forall_forall in Hd.
        rewrite (blocked_false fs (c :: r)) in Hf; [done|].
        apply Hd. by apply prefixes_self. }
      unfold is_dir in *. rewrite orb_true_iff, !bool_decide_eq_true in *.
      set_solver.
    + rewrite mkdir_recursive_clear by done.
      set (fs1 := {| dirs := dirs fs ∪ list_to_set (prefixes d);
                     files := files fs |}).
      destruct (IH fs1) as (fs' & Hrun & Hdirs).
      { eapply Forall_impl; [exact Hrest|]. intros d' Hd'.
        eapply Forall_impl; [exact Hd'|]. intros q Hq.
        by rewrite (blocked_files fs1 fs). }
      exists fs'. split; [done|]. constructor; [|done].
      destruct (ensureDirectories_effect _ _ _ Hrun) as (_ & Hsub & _).
      assert (Hdir : is_dir fs1 d = true).
      { apply (mkdir_recursive_is_dir fs). by apply mkdir_recursive_clear. }
      unfold is_dir in *. rewrite orb_true_iff, !bool_decide_eq_true in *.
      set_solver.
Qed.

Lemma AUDIOS_DIR_fits : Forall (fun s => name_fits s = true) AUDIOS_DIR.
Proof using __dirname dirname_fits.
  rewrite AUDIOS_DIR_snoc. apply Forall_app. split; [apply PUBLIC_DIR_fits|].
  by repeat constructor.
Qed.

Lemma UPLOADS_DIR_fits : Forall (fun s => name_fits s = true) UPLOADS_DIR.
Proof using __dirname dirname_fits.
  rewrite UPLOADS_DIR_eq. apply Forall_app. split; [exact dirname_fits|].
  by repeat constructor.
Qed.

(** The three directories of start-up can be made when no regular file
    sits on the way to them. *)
Lemma startup_clear (fs : filesystem) :
  Forall (fun q => is_file fs q = false) (prefixes AUDIOS_DIR) ->
  Forall (fun q => is_file fs q = false) (prefixes UPLOADS_DIR) ->
  Forall (fun d => Forall (fun q => blocked fs q = false) (prefixes d))
    [PUBLIC_DIR; AUDIOS_DIR; UPLOADS_DIR].
Proof using __dirname dirname_fits.
  intros Ha Hu. repeat constructor.
  - apply prefixes_not_blocked; [apply PUBLIC_DIR_fits|].
    revert Ha. rewrite AUDIOS_DIR_snoc, prefixes_snoc.
    by intros [? _]%Forall_app.
  - by apply prefixes_not_blocked; [apply AUDIOS_DIR_fits|].
  - by apply prefixes_not_blocked; [apply UPLOADS_DIR_fits|].
Qed.

Lemma prefixes_PUBLIC_AUDIOS (P : list (list N) -> Prop) :
  Forall P (prefixes AUDIOS_DIR) -> Forall P (prefixes PUBLIC_DIR).
Proof.
  rewrite AUDIOS_DIR_eq, PUBLIC_DIR_eq.
  change [lit "public"; lit "audios"] with ([lit "public"] ++ [lit "audios"]).
  rewrite app_assoc, prefixes_snoc. by intros [? _]%Forall_app.
Qed.

(** X20. When no regular file sits on the way to the audio directory or to the
    uploads directory, start-up succeeds and leaves the three directories
    in place; it keeps every file and every directory that was there. *)
Theorem startup_provides (fs : filesystem) :
  Forall (fun q => is_file fs q = false) (prefixes AUDIOS_DIR) ->
  Forall (fun q => is_file fs q = false) (prefixes UPLOADS_DIR) ->
  exists fs',
    startup fs = inr fs'
    /\ is_dir fs' PUBLIC_DIR = true
    /\ is_dir fs' AUDIOS_DIR = true
    /\ is_dir fs' UPLOADS_DIR = true
    /\ files fs' = files fs
    /\ dirs fs ⊆ dirs fs'.
Proof using __dirname dirname_fits.
  intros Ha Hu. unfold startup.
  destruct (ensureDirectories_succeeds [PUBLIC_DIR; AUDIOS_DIR; UPLOADS_DIR] fs)
    as (fs' & Hrun & Hdirs); [by apply startup_clear|].
  exists fs'. destruct (ensureDirectories_effect _ _ _ Hrun) as (Hf & Hsub & _).
  apply Forall_cons in Hdirs as [? Hdirs].
  apply Forall_cons in Hdirs as [? Hdirs].
  apply Forall_cons in Hdirs as [? _].
  by split_and!.
Qed.

Lemma prefixes_not_longer (p q : list (list N)) :
  (length p < length q)%nat -> q ∉ prefixes p.
Proof. intros Hl Hin%prefixes_length. lia. Qed.

Lemma artifact_not_provided (c : category) (now : Z) (l : list (list (list N))) :
  l ⊆ [PUBLIC_DIR; AUDIOS_DIR; UPLOADS_DIR] ->
  AUDIOS_DIR ++ [artifact_filename c now] ∉ l ≫= prefixes.
Proof.
  intros Hl (d & Hin & Hd%Hl)%list_elem_of_bind. revert Hin.
  apply prefixes_not_longer.
  rewrite AUDIOS_DIR_eq, UPLOADS_DIR_eq, PUBLIC_DIR_eq in *.
  rewrite !length_app. cbn [length].
  repeat (apply elem_of_cons in Hd as [->|Hd]); rewrite ?length_app;
    cbn [length]; try lia.
  by apply elem_of_nil in Hd.
Qed.

(** X21. From start-up to a stored artifact: on a disk without obstacles, the
    server starts, and a request whose provider calls succeed is answered
    with a reference under which the bytes of the chunks, in the order
    they came, can then be read. *)
Theorem startup_then_generateAudio (provider : tts_provider) (now : Z)
    (req : generateAudio_body) (fs0 : filesystem) (voices : list (list N))
    (gen : audio_stream) :
  Forall (fun q => is_file fs0 q = false) (prefixes AUDIOS_DIR) ->
  Forall (fun q => is_file fs0 q = false) (prefixes UPLOADS_DIR) ->
  is_dir fs0 (AUDIOS_DIR ++ [artifact_filename Tts now]) = false ->
  truthy (text req) = true ->
  voices_getAll provider ELEVEN_API_KEY = inr voices ->
  generate provider ELEVEN_API_KEY (js_or (voice req) VUndefined) (text req)
    = inr gen ->
  outcome gen = None ->
  exists fs1 w',
    startup fs0 = inr fs1
    /\ generateAudio provider now req {| fs := fs1; console := [] |}
       = (inr (res_json (JsonAudio (lit "audios/" ++ artifact_filename Tts now))),
          w')
    /\ visible (fs w') (AUDIOS_DIR ++ [artifact_filename Tts now])
       = Some (List.concat (map chunk_bytes (yielded gen))).
Proof using ELEVENLABS_API_KEY ELEVEN_API_KEY __dirname dirname_fits.
  intros Ha Hu Hfree Ht Hv Hg Ho.
  destruct (ensureDirectories_succeeds [PUBLIC_DIR; AUDIOS_DIR; UPLOADS_DIR] fs0)
    as (fs1 & Hrun & Hdirs); [by apply startup_clear|].
  destruct (ensureDirectories_effect _ _ _ Hrun) as (_ & _ & Hsup).
  apply Forall_cons in Hdirs as [_ [Hdir _]%Forall_cons].
  assert (Hfree1 : is_dir fs1 (AUDIOS_DIR ++ [artifact_filename Tts now]) = false).
  { unfold is_dir in *. apply orb_false_iff in Hfree as [H0 Hfree].
    rewrite H0. cbn [orb]. apply bool_decide_eq_false in Hfree.
    apply bool_decide_eq_false. intros [?|Hin]%Hsup%elem_of_union; [done|].
    apply elem_of_list_to_set in Hin. revert Hin.
    apply artifact_not_provided. intros x [_ ?]%list_elem_of_filter. done. }
  eexists fs1, _. split; [exact Hrun|].
  rewrite generateAudio_calls. unfold_M. rewrite Ht, Hv, Hg. cbn [negb].
  rewrite saveStream_spec, Ho by done.
  split; [reflexivity|].
  rewrite (map_ext _ _ to_Buffer_bytes). apply lookup_insert_eq.
Qed.

(** X22. Start-up does not tell a regular file from a directory: a regular
    file where the audio directory should be is skipped as if it were the
    directory. Once start-up has succeeded on such a disk, the file is
    still there, the audio directory is still not a directory, and no
    artifact can be stored. *)
Theorem startup_blocked_by_file (fs0 fs1 : filesystem) (c : category)
    (now : Z) (buffer : list N) (log : list console_entry) :
  is_file fs0 AUDIOS_DIR = true ->
  is_dir fs0 AUDIOS_DIR = false ->
  startup fs0 = inr fs1 ->
  is_file fs1 AUDIOS_DIR = true
  /\ is_dir fs1 AUDIOS_DIR = false
  /\ exists err,
       saveBufferToPublic buffer (artifact_filename c now)
         {| fs := fs1; console := log |}
       = (inl err, {| fs := fs1; console := log |}).
Proof.
  intros Hfile Hnodir Hrun. unfold startup in Hrun.
  destruct (ensureDirectories_effect _ _ _ Hrun) as (Hfiles & _ & Hsup).
  assert (Hnodir1 : is_dir fs1 AUDIOS_DIR = false).
  { unfold is_dir in *. apply orb_false_iff in Hnodir as [H0 Hnodir].
    rewrite H0. cbn [orb]. apply bool_decide_eq_false in Hnodir.
    apply bool_decide_eq_false. intros [?|Hin]%Hsup%elem_of_union; [done|].
    apply elem_of_list_to_set, list_elem_of_bind in Hin as (d & Hin & Hd).
    apply list_elem_of_filter in Hd as [Hex Hd].
    revert Hin. apply prefixes_not_longer.
    rewrite AUDIOS_DIR_eq, UPLOADS_DIR_eq, PUBLIC_DIR_eq in *.
    repeat (apply elem_of_cons in Hd as [->|Hd]); rewrite ?length_app;
      cbn [length]; try lia.
    - unfold existsSync in Hex. rewrite Hfile in Hex.
      by rewrite orb_true_r in Hex.
    - by apply elem_of_nil in Hd. }
  split_and!; [by rewrite (is_file_files fs1 fs0) | done |].
  unfold saveBufferToPublic, bind, fs_call, ret. rewrite artifact_path.
  unfold writeFile. cbn [fs]. rewrite parent_snoc, Hnodir1.
  destruct (is_dir fs1 (AUDIOS_DIR ++ [artifact_filename c now]));
    eexists; reflexivity.
Qed.

(** *** Writing twice *)

(** X23. A second write under the same name replaces the first without a
    trace: the outcome is that of the second write alone. *)
Theorem saveBufferToPublic_last_write_wins (c : category) (now : Z)
    (first second : list N) (w : world) :
  is_dir (fs w) AUDIOS_DIR = true ->
  is_dir (fs w) (AUDIOS_DIR ++ [artifact_filename c now]) = false ->
  let w1 := (saveBufferToPublic first (artifact_filename c now) w).2 in
  saveBufferToPublic second (artifact_filename c now) w1
  = saveBufferToPublic second (artifact_filename c now) w.
Proof.
  intros Hdir Hfree w1. unfold w1.
  rewrite (saveBufferToPublic_stores c now first w) by done. cbn [snd].
  rewrite (saveBufferToPublic_stores c now second w) by done.
  rewrite (saveBufferToPublic_stores c now second (stored w _ first))
    by first [exact Hdir | exact Hfree].
  unfold stored. cbn [fs dirs files console]. by rewrite insert_insert_eq.
Qed.

End Server.

(** ** The sample installation at work *)

Example startup_sample : startup sample_dirname empty_fs = inr sample_fs.
Proof. vm_compute. reflexivity. Qed.

Example sanitize_accent :
  sanitize identity_upper (lit "caf" ++ [e_acute] ++ lit "/../x")
  = lit "caf_____x".
Proof. vm_compute. reflexivity. Qed.

Lemma generateAudio_missing_text_witness :
  generateAudio sample_dirname None None rejecting_tts sample_tick
    {| text := VUndefined; voice := VUndefined |} sample_world
  = (inr (res_status_json 400 (JsonError msg_texto_obrigatorio None)),
     sample_world).
Proof.
  apply (generateAudio_missing_text sample_dirname None None rejecting_tts
           sample_tick {| text := VUndefined; voice := VUndefined |}
           sample_world).
  reflexivity.
Defined.

Lemma stream_stored_in_order_witness :
  saveStream sample_dirname sample_stream sample_tick sample_world
  = (inr (lit "audios/tts-1730000000000.mp3"),
     stored sample_world (sample_audios ++ [lit "tts-1730000000000.mp3"])
       [1; 2; 3])
  /\ generateAudio sample_dirname (Some (lit "sk_test")) None
       (streaming_tts sample_stream) sample_tick sample_tts_request
       sample_world
     = (inr (res_json (JsonAudio (lit "audios/tts-1730000000000.mp3"))),
        stored (logged sample_world [ConsoleLog [lit "Rachel"]])
          (sample_audios ++ [lit "tts-1730000000000.mp3"]) [1; 2; 3]).
Proof.
  apply (stream_stored_in_order sample_dirname (Some (lit "sk_test")) None
           (streaming_tts sample_stream) sample_tick sample_tts_request
           sample_world [lit "Rachel"] sample_stream);
    vm_compute; reflexivity.
Defined.

(** The stream of two chunks, a [Buffer] and a [Uint8Array]: the file read
    back holds their three bytes in order. *)
Example stream_stored_sample :
  exists w',
    generateAudio sample_dirname (Some (lit "sk_test")) None
      (streaming_tts sample_stream) sample_tick sample_tts_request sample_world
    = (inr (res_json (JsonAudio (lit "audios/tts-1730000000000.mp3"))), w')
    /\ visible (fs w') (sample_audios ++ [lit "tts-1730000000000.mp3"])
       = Some [1; 2; 3].
Proof. eexists. split; vm_compute; reflexivity. Qed.

(** The stream that throws after its first chunk: nothing is stored, and
    the answer carries the error of the stream. *)
Example stream_broken_sample :
  saveStream sample_dirname broken_stream sample_tick sample_world
  = (inl (Rejected (Some (lit "aborted"))), sample_world)
  /\ generateAudio sample_dirname (Some (lit "sk_test")) None
       (streaming_tts broken_stream) sample_tick sample_tts_request
       sample_world
     = (inr (res_status_json 500
               (JsonError msg_erro_gerar_audio
                  (Some (Rejected (Some (lit "aborted")))))),
        logged (logged sample_world [ConsoleLog [lit "Rachel"]])
          [ConsoleError (lit "generateAudio error")
             (Rejected (Some (lit "aborted")))]).
Proof. split; vm_compute; reflexivity. Qed.


Lemma ensureDirectories_idempotent_witness :
  ensureDirectories [sample_public; sample_audios; sample_uploads] sample_fs
  = inr sample_fs
  /\ Forall (fun d => existsSync sample_fs d = true)
       [sample_public; sample_audios; sample_uploads].
Proof.
  apply (ensureDirectories_idempotent
           [sample_public; sample_audios; sample_uploads] empty_fs sample_fs).
  vm_compute. reflexivity.
Defined.

Lemma createProject_sanitizes_and_signals_witness :
  projectFolderPath identity_upper sample_dirname (lit "My Project!")
  = sample_public ++ [lit "My_Project_"]
  /\ createProject identity_upper sample_dirname (VString (lit "My Project!"))
       sample_world
     = (inr (res_json (JsonMessage (msg_pasta_criada (lit "My Project!")))),
        made sample_world (sample_public ++ [lit "My_Project_"]))
  /\ createProject identity_upper sample_dirname (VString (lit "My Project!"))
       (made sample_world (sample_public ++ [lit "My_Project_"]))
     = (inr (res_json (JsonMessage msg_projeto_ja_existe)),
        made sample_world (sample_public ++ [lit "My_Project_"])).
Proof.
  destruct (createProject_sanitizes_and_signals identity_upper sample_dirname
              ltac:(repeat constructor) (lit "My Project!") sample_world)
    as (_ & Hpath & Hfirst & Hsecond & _).
  - discriminate.
  - vm_compute. repeat constructor.
  - split; [exact Hpath|]. split; [exact Hfirst|].
    cbv zeta in Hsecond. rewrite Hfirst in Hsecond. exact Hsecond.
Defined.

(** A name of 256 letters: no directory of that name can be made, and the
    answer is the failure, the second time as the first. *)
Example createProject_too_long_sample :
  let name := repeat 97%N 256 in
  let refused :=
    (inr (res_status_json 500 (JsonError msg_erro_criar_pasta None)),
     logged sample_world
       [ConsoleError (lit "createProject error")
          (SystemError ENAMETOOLONG (sample_public ++ [name]))]) in
  createProject identity_upper sample_dirname (VString name) sample_world
  = refused
  /\ fs (createProject identity_upper sample_dirname (VString name)
           sample_world).2
     = sample_fs.
Proof. split; vm_compute; reflexivity. Qed.

Lemma createProject_no_traversal_witness :
  Forall (fun c => name_char c = true)
    (sanitize identity_upper (lit "../../etc/cron.d"))
  /\ parent (projectFolderPath identity_upper sample_dirname
               (lit "../../etc/cron.d"))
     = sample_public.
Proof.
  destruct (createProject_no_traversal identity_upper sample_dirname
              (VString (lit "../../etc/cron.d")) sample_world)
    as (_ & (Hchars & _) & [Hsame|(name & Hname & _ & _ & Hparent & _)]).
  - exfalso. revert Hsame. vm_compute. discriminate.
  - injection Hname as <-. split; [exact Hchars | exact Hparent].
Defined.

Lemma temp_upload_cleanup_silent_witness :
  speech_to_speech sample_dirname (Some (lit "sk_test")) None converting_sts
    sample_tick sample_s2s_request sample_uploaded_world
  = (inr (res_json (JsonAudio (lit "audios/s2s-1730000000000.mp3"))),
     stored sample_world (sample_audios ++ [lit "s2s-1730000000000.mp3"])
       [73; 68; 51]).
Proof.
  apply (temp_upload_cleanup_silent sample_dirname (Some (lit "sk_test")) None
           converting_sts sample_tick sample_s2s_request sample_upload
           [73; 68; 51] sample_uploaded_world);
    vm_compute; reflexivity.
Defined.

(** The upload is gone from disk before the handler reaches the deletion:
    the deletion fails, the request succeeds all the same, and no line is
    added to the console. *)
Lemma cleanup_failure_not_logged :
  let stored_audio :=
    stored sample_world (sample_audios ++ [lit "s2s-1730000000000.mp3"])
      [73; 68; 51] in
  unlink (fs stored_audio) (file_path sample_upload)
  = inl (SystemError ENOENT (file_path sample_upload))
  /\ speech_to_speech sample_dirname (Some (lit "sk_test")) None converting_sts
       sample_tick sample_s2s_request sample_world
     = (inr (res_json (JsonAudio (lit "audios/s2s-1730000000000.mp3"))),
        stored_audio)
  /\ console stored_audio = console sample_world.
Proof. split_and!; vm_compute; reflexivity. Qed.

Lemma writeArtifacts_distinct_ticks_witness :
  NoDup [artifact_filename S2s 1730000000000; artifact_filename S2s 1730000000001]
  /\ exists w',
       writeArtifacts sample_dirname S2s
         [(1730000000000%Z, [1]); (1730000000001%Z, [2])] sample_world
       = (inr [lit "audios/s2s-1730000000000.mp3";
               lit "audios/s2s-1730000000001.mp3"], w')
       /\ dirs (fs w') = dirs sample_fs
       /\ Forall (fun call =>
                    files (fs w')
                      !! (AUDIOS_DIR sample_dirname
                            ++ [artifact_filename S2s call.1])
                    = Some call.2)
            [(1730000000000%Z, [1]); (1730000000001%Z, [2])].
Proof.
  apply (writeArtifacts_distinct_ticks sample_dirname S2s
           [(1730000000000%Z, [1]); (1730000000001%Z, [2])] sample_world).
  - vm_compute. reflexivity.
  - repeat constructor.
  - cbn [map fst]. apply NoDup_cons. split; [|apply NoDup_singleton].
    by intros [=]%list_elem_of_singleton.
Defined.

(** Two writes within one millisecond: both get the same name, and the
    second replaces what the first stored. *)
Lemma same_tick_filenames_collide :
  let calls := [(sample_tick, [1]); (sample_tick, [2])] in
  exists ref w',
    writeArtifacts sample_dirname Tts calls sample_world = (inr [ref; ref], w')
    /\ ~ NoDup [ref; ref]
    /\ size (files (fs w')) = 1%nat
    /\ visible (fs w') (sample_audios ++ [lit "tts-1730000000000.mp3"])
       = Some [2].
Proof.
  eexists _, _. split_and!.
  - vm_compute. reflexivity.
  - intros [Hin _]%NoDup_cons. apply Hin. by left.
  - vm_compute. reflexivity.
  - vm_compute. reflexivity.
Qed.

Lemma saveBufferToPublic_written_on_return_witness :
  saveBufferToPublic sample_dirname [1; 2] (lit "tts-1730000000000.mp3")
    sample_world
  = (inr (lit "audios/tts-1730000000000.mp3"),
     stored sample_world (sample_audios ++ [lit "tts-1730000000000.mp3"])
       [1; 2]).
Proof.
  destruct (saveBufferToPublic_written_on_return sample_dirname [1; 2]
              (lit "tts-1730000000000.mp3") sample_world) as (Hret & _).
  - vm_compute. reflexivity.
  - vm_compute. reflexivity.
  - exact Hret.
Defined.

(** The write of a two-byte artifact, stopped after its first byte: the
    file is at its public path, [saveBufferToPublic] has not returned, and
    a reader gets one byte. *)
Lemma partial_file_visible :
  let p := sample_audios ++ [lit "tts-1730000000000.mp3"] in
  exists fs1,
    rtc (write_step p) (sample_fs, Opening [1; 2]) (fs1, Writing [2])
    /\ visible fs1 p = Some [1]
    /\ visible fs1 p <> Some [1; 2].
Proof.
  intros p.
  exists {| dirs := dirs sample_fs; files := <[p := [1]]> (files sample_fs) |}.
  split_and!.
  - eapply rtc_l.
    { apply step_open; vm_compute; reflexivity. }
    eapply rtc_l; [|apply rtc_refl].
    pose proof (step_write p
      {| dirs := dirs sample_fs; files := <[p := []]> (files sample_fs) |}
      [] [1] [2]) as Hstep.
    cbn [files app] in Hstep. rewrite insert_insert_eq in Hstep.
    apply Hstep; [done | apply lookup_insert_eq].
  - apply lookup_insert_eq.
  - unfold visible. cbn [files]. rewrite lookup_insert_eq. discriminate.
Qed.

(** C2. [generateAudio] never answers with the missing-key message, under
    no configuration: its guard follows the building of the client, which
    either throws or gives an object. With no key at all the constructor
    throws, and the answer is the 500 of the [catch], with the message of
    the library as [details] and nothing but a console line added to the
    world; [speech-to-speech], with the same keys, answers with the
    missing-key message. *)
Theorem generateAudio_missing_key_unreported :
  (forall (dirname : list (list N)) (key fallback : option (list N))
          (provider : tts_provider) (now : Z) (req : generateAudio_body)
          (w : world),
      is_config_error (generateAudio dirname key fallback provider now req w).1
      = false)
  /\ (forall (dirname : list (list N)) (provider : tts_provider) (now : Z)
             (w : world),
        generateAudio dirname None None provider now sample_tts_request w
        = (inr (res_status_json 500
                  (JsonError msg_erro_gerar_audio (Some missing_api_key))),
           logged w [ConsoleError (lit "generateAudio error") missing_api_key]))
  /\ speech_to_speech sample_dirname None None converting_sts sample_tick
       sample_s2s_request sample_uploaded_world
     = (inr (res_status_json 500 (JsonError msg_key_nao_configurada None)),
        sample_uploaded_world).
Proof.
  split_and!.
  - intros. apply generateAudio_never_config_error.
  - intros. by apply generateAudio_without_key.
  - vm_compute. reflexivity.
Qed.

(** With [XI_API_KEY] alone the module does not load: line 46 builds the
    client from [ELEVEN_API_KEY], which is not there. *)
Example elevenClient_xi_key_only :
  elevenClient None (Some (lit "sk_test")) None = inl missing_api_key.
Proof. vm_compute. reflexivity. Qed.

Example speech_to_speech_missing_key_sample :
  speech_to_speech sample_dirname None None converting_sts sample_tick
    sample_s2s_request sample_uploaded_world
  = (inr (res_status_json 500 (JsonError msg_key_nao_configurada None)),
     sample_uploaded_world).
Proof. vm_compute. reflexivity. Qed.

(** ** Further properties on the sample installation *)

Lemma createProject_names_collide_witness :
  projectFolderPath identity_upper sample_dirname (lit "a b")
  = projectFolderPath identity_upper sample_dirname (lit "a_b")
  /\ createProject identity_upper sample_dirname (VString (lit "a_b"))
       (createProject identity_upper sample_dirname (VString (lit "a b"))
          sample_world).2
     = (inr (res_json (JsonMessage msg_projeto_ja_existe)),
        (createProject identity_upper sample_dirname (VString (lit "a b"))
           sample_world).2).
Proof.
  apply (createProject_names_collide identity_upper sample_dirname
           ltac:(repeat constructor) (lit "a b") (lit "a_b") sample_world).
  - discriminate.
  - discriminate.
  - vm_compute. lia.
  - vm_compute. reflexivity.
  - vm_compute. repeat constructor.
Defined.

Lemma artifact_filename_inj_category_witness :
  Tts = Tts /\ sample_tick = sample_tick.
Proof.
  apply (artifact_filename_inj_category Tts Tts sample_tick sample_tick).
  reflexivity.
Defined.

Lemma storage_filename_tick_inj_witness : sample_tick = sample_tick.
Proof.
  apply (storage_filename_tick_inj sample_tick sample_tick
           (lit "my  voice.wav") (lit "my voice.wav")).
  vm_compute. reflexivity.
Defined.

Lemma upload_path_child_witness :
  upload_path sample_dirname 1729999999000 (lit "voice.wav")
  = sample_uploads ++ [lit "1729999999000-voice.wav"]
  /\ parent (upload_path sample_dirname 1729999999000 (lit "voice.wav"))
     = sample_uploads.
Proof.
  apply (upload_path_child sample_dirname 1729999999000 (lit "voice.wav")).
  compute_done.
Defined.

(** A file name with [/] in it is joined as it is: the [replace] of the
    storage leaves separators alone. *)
Example upload_path_escapes :
  upload_path sample_dirname sample_tick (lit "../../../etc/x")
  = [lit "srv"; lit "app"; lit "etc"; lit "x"].
Proof. vm_compute. reflexivity. Qed.

Lemma createProject_rejects_non_strings_witness :
  createProject identity_upper sample_dirname (VNumber 5) sample_world
  = (inr (res_status_json 500 (JsonError msg_erro_criar_pasta None)),
     logged sample_world [ConsoleError (lit "createProject error") TypeError]).
Proof.
  apply (createProject_rejects_non_strings identity_upper sample_dirname
           (VNumber 5) sample_world).
  intros name. discriminate.
Defined.


Lemma generateAudio_voices_failure_witness :
  generateAudio sample_dirname (Some (lit "sk_test")) None rejecting_tts
    sample_tick sample_tts_request sample_world
  = (inr (res_status_json 500
            (JsonError msg_erro_gerar_audio (Some unauthorized))),
     logged sample_world
       [ConsoleError (lit "generateAudio error") unauthorized]).
Proof.
  apply (generateAudio_voices_failure sample_dirname (Some (lit "sk_test"))
           None rejecting_tts sample_tick sample_tts_request sample_world
           unauthorized); reflexivity.
Defined.

Lemma generateAudio_store_failure_witness :
  generateAudio sample_dirname (Some (lit "sk_test")) None
    (streaming_tts sample_stream) sample_tick sample_tts_request bare_world
  = (inr (res_status_json 500
            (JsonError msg_erro_gerar_audio
               (Some (SystemError ENOENT
                        (sample_audios ++ [lit "tts-1730000000000.mp3"]))))),
     logged (logged bare_world [ConsoleLog [lit "Rachel"]])
       [ConsoleError (lit "generateAudio error")
          (SystemError ENOENT
             (sample_audios ++ [lit "tts-1730000000000.mp3"]))]).
Proof.
  apply (generateAudio_store_failure sample_dirname (Some (lit "sk_test"))
           None (streaming_tts sample_stream) sample_tick sample_tts_request
           bare_world [lit "Rachel"] sample_stream);
    try (vm_compute; reflexivity).
  vm_compute. repeat constructor.
Defined.

Lemma generateAudio_empty_audio_witness :
  generateAudio sample_dirname (Some (lit "sk_test")) None
    (streaming_tts StreamEnd) sample_tick sample_tts_request sample_world
  = (inr (res_json (JsonAudio (lit "audios/tts-1730000000000.mp3"))),
     stored (logged sample_world [ConsoleLog [lit "Rachel"]])
       (sample_audios ++ [lit "tts-1730000000000.mp3"]) []).
Proof.
  apply (generateAudio_empty_audio sample_dirname (Some (lit "sk_test")) None
           (streaming_tts StreamEnd) sample_tick sample_tts_request
           sample_world [lit "Rachel"] StreamEnd);
    try (vm_compute; reflexivity).
  constructor.
Defined.

Lemma handlers_keep_fallback_witness :
  fallback sample_dirname
    (fs (handle identity_upper sample_dirname (Some (lit "sk_test")) None None
           (SpeechToSpeech converting_sts sample_s2s_request) sample_tick
           sample_uploaded_world).2)
  = fallback sample_dirname (fs sample_uploaded_world).
Proof.
  apply (handlers_keep_fallback identity_upper sample_dirname
           (Some (lit "sk_test")) None None
           (SpeechToSpeech converting_sts sample_s2s_request) sample_tick
           sample_uploaded_world).
  exists (lit "1729999999000-voice.wav"). reflexivity.
Defined.

Lemma speech_to_speech_validation_first_witness :
  speech_to_speech sample_dirname None None converting_sts sample_tick
    {| file := None; s2s_voice := VUndefined |} sample_world
  = (inr (res_status_json 400 (JsonError msg_arquivo_obrigatorio None)),
     sample_world).
Proof.
  apply (speech_to_speech_validation_first sample_dirname None None
           converting_sts sample_tick
           {| file := None; s2s_voice := VUndefined |} sample_world).
  left. reflexivity.
Defined.

Lemma speech_to_speech_failure_keeps_upload_witness :
  speech_to_speech sample_dirname (Some (lit "sk_test")) None rejecting_sts
    sample_tick sample_s2s_request sample_uploaded_world
  = (inr (res_status_json 500 (JsonError msg_erro_s2s (Some unauthorized))),
     logged sample_uploaded_world
       [ConsoleError (lit "speech-to-speech error") unauthorized])
  /\ visible
       (fs (speech_to_speech sample_dirname (Some (lit "sk_test")) None
              rejecting_sts sample_tick sample_s2s_request
              sample_uploaded_world).2)
       (file_path sample_upload)
     = visible (fs sample_uploaded_world) (file_path sample_upload).
Proof.
  apply (speech_to_speech_failure_keeps_upload sample_dirname
           (Some (lit "sk_test")) None rejecting_sts sample_tick
           sample_s2s_request sample_upload unauthorized
           sample_uploaded_world); reflexivity.
Defined.

Lemma speech_to_speech_success_effect_witness :
  speech_to_speech sample_dirname (Some (lit "sk_test")) None converting_sts
    sample_tick sample_s2s_request sample_uploaded_world
  = (inr (res_json (JsonAudio (lit "audios/" ++ artifact_filename S2s sample_tick))),
     {| fs := {| dirs := dirs sample_fs;
                 files := delete (file_path sample_upload)
                            (<[AUDIOS_DIR sample_dirname
                                 ++ [artifact_filename S2s sample_tick]
                               := [73; 68; 51]]>
                               (files (fs sample_uploaded_world))) |};
        console := [] |}).
Proof.
  apply (speech_to_speech_success_effect sample_dirname (Some (lit "sk_test"))
           None converting_sts sample_tick sample_s2s_request sample_upload
           (lit "1729999999000-voice.wav") [73; 68; 51] [82; 73; 70; 70]
           sample_uploaded_world); vm_compute; reflexivity.
Defined.

Lemma speech_to_speech_key_check_witness :
  is_config_error
    (speech_to_speech sample_dirname (Some []) None converting_sts sample_tick
       sample_s2s_request sample_uploaded_world).1 = true
  <-> ((Some [] : option (list N)) = None
       \/ (Some [] : option (list N)) = Some [])
      /\ ((None : option (list N)) = None
          \/ (None : option (list N)) = Some []).
Proof.
  apply (speech_to_speech_key_check sample_dirname (Some []) None
           converting_sts sample_tick sample_s2s_request sample_upload
           sample_uploaded_world); reflexivity.
Defined.

Lemma startup_provides_witness :
  exists fs',
    startup sample_dirname empty_fs = inr fs'
    /\ is_dir fs' (PUBLIC_DIR sample_dirname) = true
    /\ is_dir fs' (AUDIOS_DIR sample_dirname) = true
    /\ is_dir fs' (UPLOADS_DIR sample_dirname) = true
    /\ files fs' = files empty_fs
    /\ dirs empty_fs ⊆ dirs fs'.
Proof.
  apply (startup_provides sample_dirname ltac:(repeat constructor) empty_fs);
    vm_compute; repeat constructor.
Defined.

Lemma startup_then_generateAudio_witness :
  exists fs1 w',
    startup sample_dirname empty_fs = inr fs1
    /\ generateAudio sample_dirname (Some (lit "sk_test")) None
         (streaming_tts sample_stream) sample_tick sample_tts_request
         {| fs := fs1; console := [] |}
       = (inr (res_json (JsonAudio (lit "audios/tts-1730000000000.mp3"))), w')
    /\ visible (fs w') (sample_audios ++ [lit "tts-1730000000000.mp3"])
       = Some [1; 2; 3].
Proof.
  apply (startup_then_generateAudio sample_dirname (Some (lit "sk_test")) None
           ltac:(repeat constructor) (streaming_tts sample_stream) sample_tick
           sample_tts_request empty_fs [lit "Rachel"] sample_stream);
    try (vm_compute; reflexivity); vm_compute; repeat constructor.
Defined.

Lemma startup_blocked_by_file_witness :
  is_file audios_file_fs sample_audios = true
  /\ is_dir audios_file_fs sample_audios = false
  /\ exists err,
       saveBufferToPublic sample_dirname [1; 2]
         (artifact_filename Tts sample_tick)
         {| fs := audios_file_fs; console := [] |}
       = (inl err, {| fs := audios_file_fs; console := [] |}).
Proof.
  apply (startup_blocked_by_file sample_dirname audios_file_fs audios_file_fs
           Tts sample_tick [1; 2] []); vm_compute; reflexivity.
Defined.

(** The error of that write names the artifact, and tells that a part of
    its path is not a directory. *)
Example startup_blocked_by_file_sample :
  startup sample_dirname audios_file_fs = inr audios_file_fs
  /\ saveBufferToPublic sample_dirname [1; 2] (lit "tts-1730000000000.mp3")
       {| fs := audios_file_fs; console := [] |}
     = (inl (SystemError ENOTDIR
               (sample_audios ++ [lit "tts-1730000000000.mp3"])),
        {| fs := audios_file_fs; console := [] |}).
Proof. split; vm_compute; reflexivity. Qed.

Lemma saveBufferToPublic_last_write_wins_witness :
  saveBufferToPublic sample_dirname [2] (artifact_filename Tts sample_tick)
    (saveBufferToPublic sample_dirname [1] (artifact_filename Tts sample_tick)
       sample_world).2
  = saveBufferToPublic sample_dirname [2] (artifact_filename Tts sample_tick)
      sample_world.
Proof.
  apply (saveBufferToPublic_last_write_wins sample_dirname Tts sample_tick
           [1] [2] sample_world); vm_compute; reflexivity.
Defined.
